(** * Endless Rooftop Runner: level generator, physics step and run lifecycle

    A shallow embedding of [main.py] and the properties of its generator
    ([spawn_platform]), its reset ([reset_game]) and the body of the frame
    loop of [main].

    - Rectangles are [pygame.Rect] values; their coordinates are integers
      ([Z]), the C storage behind them is not modelled.
    - Python floats are exact rationals ([Q]); [int(.)] truncates towards
      zero.  Rounding is left out; the comparisons of [random()] with 0.3 and
      0.5 come out the same on the rationals [k / 2^53] as on the doubles.
    - The [random] module is a stream of raw draws with a cursor, threaded
      through the generator.
    - The three entity lists are mutated in place; they are threaded as one
      store.  No rectangle is shared between lists, so the lists hold values.
    - Logging and drawing have no effect on the state.  Drawing is left
      out; of logging, what is kept is that a [log_info] inside the [try]
      block of [spawn_platform] may raise ([Faults]). *)

From Stdlib Require Import ZArith QArith List Bool Lia.
Import ListNotations.
Local Open Scope Z_scope.

(** ** Configuration / constants *)

Definition SCREEN_WIDTH : Z := 800.
Definition SCREEN_HEIGHT : Z := 600.
Definition FPS : Z := 60.

Definition GRAVITY : Q := 8 # 10.
Definition JUMP_POWER : Q := (-12) # 1.
Definition MAX_JUMPS : Z := 2.

Definition PLATFORM_WIDTH : Z := 150.
Definition PLATFORM_HEIGHT : Z := 10.
Definition PLATFORM_MIN_Y : Z := 250.
Definition PLATFORM_MAX_Y : Z := 400.
Definition PLATFORM_Y_DELTA : Z := 50.
Definition HORIZONTAL_GAP : Z := 180.
Definition SCROLL_SPEED : Q := 5 # 1.

Definition OBSTACLE_CHANCE : Q := 3 # 10.
Definition COIN_CHANCE : Q := 5 # 10.
Definition OBSTACLE_SIZE : Z * Z := (30, 30).
Definition COIN_SIZE : Z * Z := (20, 20).
Definition COIN_OFFSET_ABOVE_ROOF : Z := 30.
Definition EDGE_PADDING : Z := 20.

(** ** Numbers *)

(** Python's [int(f)] on a float: truncation towards zero. *)
Definition int_of (q : Q) : Z := Z.quot (Qnum q) (Zpos (Qden q)).

Definition Qltb (a b : Q) : bool := negb (Qle_bool b a).

Definition Q_of_Z (z : Z) : Q := z # 1.

(** ** Rectangles ([pygame.Rect]) *)

Module Rect.

Record t : Type := mk { x : Z; y : Z; width : Z; height : Z }.

Definition top (r : t) : Z := y r.
Definition bottom (r : t) : Z := y r + height r.
Definition left (r : t) : Z := x r.
Definition right (r : t) : Z := x r + width r.

Definition set_x (v : Z) (r : t) : t := mk v (y r) (width r) (height r).
Definition set_y (v : Z) (r : t) : t := mk (x r) v (width r) (height r).

(** [r.bottom = v] moves the rectangle, keeping its size. *)
Definition set_bottom (v : Z) (r : t) : t := set_y (v - height r) r.

(** [a.colliderect(b)]: a rectangle of zero width or height collides with
    nothing; otherwise the open extents must overlap on both axes. *)
Definition colliderect (a b : t) : bool :=
  if (width a =? 0) || (height a =? 0) || (width b =? 0) || (height b =? 0)
  then false
  else (Z.min (x a) (x a + width a) <? Z.max (x b) (x b + width b))
    && (Z.min (y a) (y a + height a) <? Z.max (y b) (y b + height b))
    && (Z.max (x a) (x a + width a) >? Z.min (x b) (x b + width b))
    && (Z.max (y a) (y a + height a) >? Z.min (y b) (y b + height b)).

(** [a == b] on rectangles compares the four fields. *)
Definition eqb (a b : t) : bool :=
  (x a =? x b) && (y a =? y b) && (width a =? width b) && (height a =? height b).

End Rect.

(** ** The random source

    [random] is a stream of raw draws with a cursor.  [randint a b] maps a
    draw onto [a..b] and raises [ValueError] on an empty range, before any
    draw is consumed; [random()] yields [k / 2^53] with [0 <= k < 2^53]. *)

Record Rng : Type := mkRng { tape : nat -> Z; cursor : nat }.

Definition draw (g : Rng) : Z * Rng :=
  (tape g (cursor g), mkRng (tape g) (S (cursor g))).

Inductive exn : Type := ValueError | TypeError | OSError.

Definition randint (a b : Z) (g : Rng) : (Z + exn) * Rng :=
  if b <? a then (inr ValueError, g)
  else let (r, g') := draw g in (inl (a + r mod (b - a + 1)), g').

Definition random (g : Rng) : Q * Rng :=
  let (r, g') := draw g in
  (Qmake (r mod 2 ^ 53) (2 ^ 53), g').

(** ** The entity collections

    The three lists are mutated in place by the generator, so they are
    threaded as one store together with the random source. *)

Record World : Type := mkWorld {
  platforms : list Rect.t;
  obstacles : list Rect.t;
  coins : list Rect.t;
  rng : Rng
}.

Definition set_rng (g : Rng) (w : World) : World :=
  mkWorld (platforms w) (obstacles w) (coins w) g.

(** Computations over the store that may raise.  An exception does not roll
    anything back: the store reached at the raise is what the handler sees. *)
Definition M (A : Type) : Type := World -> (A + exn) * World.

Definition ret {A} (a : A) : M A := fun w => (inl a, w).

Definition bind {A B} (m : M A) (k : A -> M B) : M B :=
  fun w => match m w with
           | (inl a, w') => k a w'
           | (inr e, w') => (inr e, w')
           end.

Notation "x <- m ;; k" := (bind m (fun x => k))
  (at level 61, m at next level, right associativity).
Notation "m ;;; k" := (bind m (fun _ => k))
  (at level 61, right associativity).

Definition when (c : bool) (m : M unit) : M unit :=
  if c then m else ret tt.

Definition m_randint (a b : Z) : M Z :=
  fun w => let (r, g) := randint a b (rng w) in (r, set_rng g w).

Definition m_random : M Q :=
  fun w => let (q, g) := random (rng w) in (inl q, set_rng g w).

Definition append_platform (r : Rect.t) : M unit :=
  fun w => (inl tt, mkWorld (platforms w ++ [r]) (obstacles w) (coins w) (rng w)).

Definition append_obstacle (r : Rect.t) : M unit :=
  fun w => (inl tt, mkWorld (platforms w) (obstacles w ++ [r]) (coins w) (rng w)).

Definition append_coin (r : Rect.t) : M unit :=
  fun w => (inl tt, mkWorld (platforms w) (obstacles w) (coins w ++ [r]) (rng w)).

(** ** Level generator *)

(** The body of the [try] block of [spawn_platform]. *)
Definition spawn_platform_try (last_platform_y x : Z) : M (Z * Z) :=
  y <- m_randint (Z.max PLATFORM_MIN_Y (last_platform_y - PLATFORM_Y_DELTA))
                 (Z.min PLATFORM_MAX_Y (last_platform_y + PLATFORM_Y_DELTA)) ;;
  append_platform (Rect.mk x y PLATFORM_WIDTH PLATFORM_HEIGHT) ;;;
  when (SCREEN_WIDTH / 4 <? x)
    (p <- m_random ;;
     when (Qltb p OBSTACLE_CHANCE)
       (dx <- m_randint EDGE_PADDING
                (PLATFORM_WIDTH - fst OBSTACLE_SIZE - EDGE_PADDING) ;;
        let obstacle_x := x + dx in
        let obstacle_y := y - snd OBSTACLE_SIZE in
        append_obstacle
          (Rect.mk obstacle_x obstacle_y (fst OBSTACLE_SIZE) (snd OBSTACLE_SIZE))) ;;;
     q <- m_random ;;
     when (Qltb q COIN_CHANCE)
       (dx <- m_randint EDGE_PADDING
                (PLATFORM_WIDTH - fst COIN_SIZE - EDGE_PADDING) ;;
        let coin_x := x + dx in
        let coin_y := y - snd COIN_SIZE - COIN_OFFSET_ABOVE_ROOF in
        append_coin (Rect.mk coin_x coin_y (fst COIN_SIZE) (snd COIN_SIZE)))) ;;;
  let next_x := x + PLATFORM_WIDTH + HORIZONTAL_GAP in
  ret (next_x, y).

(** The obstacle/coin part of the [try] block, named so that it can be
    reasoned about on its own ([spawn_platform_try_unfold] shows it is the
    same term). *)
Definition extras (x y : Z) : M unit :=
  when (SCREEN_WIDTH / 4 <? x)
    (p <- m_random ;;
     when (Qltb p OBSTACLE_CHANCE)
       (dx <- m_randint EDGE_PADDING
                (PLATFORM_WIDTH - fst OBSTACLE_SIZE - EDGE_PADDING) ;;
        append_obstacle
          (Rect.mk (x + dx) (y - snd OBSTACLE_SIZE)
             (fst OBSTACLE_SIZE) (snd OBSTACLE_SIZE))) ;;;
     q <- m_random ;;
     when (Qltb q COIN_CHANCE)
       (dx <- m_randint EDGE_PADDING
                (PLATFORM_WIDTH - fst COIN_SIZE - EDGE_PADDING) ;;
        append_coin
          (Rect.mk (x + dx) (y - snd COIN_SIZE - COIN_OFFSET_ABOVE_ROOF)
             (fst COIN_SIZE) (snd COIN_SIZE)))).

(** [spawn_platform]: the [try] block with its [except Exception] handler.
    Returns [(next_spawn_x, new_last_platform_y)] and the store. *)
Definition spawn_platform (last_platform_y x : Z) (w : World) : (Z * Z) * World :=
  match spawn_platform_try last_platform_y x w with
  | (inl r, w') => (r, w')
  | (inr _, w') => ((x + PLATFORM_WIDTH + HORIZONTAL_GAP, last_platform_y), w')
  end.

(** *** The library calls inside the [try] block

    Besides [randint], the [try] block calls [pygame.Rect] three times and
    [log_info] (a [print]) three times, each of which can raise: a [Rect]
    refuses arguments it cannot store, a [print] fails on a closed or broken
    stream.  [Faults] says, for each of these six calls, whether it raises
    in the run at hand; each is made at most once per [spawn_platform]. *)
Inductive call_site : Type :=
| platform_rect | platform_log
| obstacle_rect | obstacle_log
| coin_rect | coin_log.

Definition Faults : Type := call_site -> option exn.

Definition no_faults : Faults := fun _ => None.

Definition lib (f : Faults) (c : call_site) : M unit :=
  fun w => match f c with
           | Some e => (inr e, w)
           | None => (inl tt, w)
           end.

(** The body of the [try] block with its library calls written out.  The
    rectangle is built before it is appended, and the [log_info] follows the
    append. *)
Definition spawn_platform_try_under (f : Faults) (last_platform_y x : Z) : M (Z * Z) :=
  y <- m_randint (Z.max PLATFORM_MIN_Y (last_platform_y - PLATFORM_Y_DELTA))
                 (Z.min PLATFORM_MAX_Y (last_platform_y + PLATFORM_Y_DELTA)) ;;
  lib f platform_rect ;;;
  append_platform (Rect.mk x y PLATFORM_WIDTH PLATFORM_HEIGHT) ;;;
  lib f platform_log ;;;
  when (SCREEN_WIDTH / 4 <? x)
    (p <- m_random ;;
     when (Qltb p OBSTACLE_CHANCE)
       (dx <- m_randint EDGE_PADDING
                (PLATFORM_WIDTH - fst OBSTACLE_SIZE - EDGE_PADDING) ;;
        let obstacle_x := x + dx in
        let obstacle_y := y - snd OBSTACLE_SIZE in
        lib f obstacle_rect ;;;
        append_obstacle
          (Rect.mk obstacle_x obstacle_y (fst OBSTACLE_SIZE) (snd OBSTACLE_SIZE)) ;;;
        lib f obstacle_log) ;;;
     q <- m_random ;;
     when (Qltb q COIN_CHANCE)
       (dx <- m_randint EDGE_PADDING
                (PLATFORM_WIDTH - fst COIN_SIZE - EDGE_PADDING) ;;
        let coin_x := x + dx in
        let coin_y := y - snd COIN_SIZE - COIN_OFFSET_ABOVE_ROOF in
        lib f coin_rect ;;;
        append_coin (Rect.mk coin_x coin_y (fst COIN_SIZE) (snd COIN_SIZE)) ;;;
        lib f coin_log)) ;;;
  let next_x := x + PLATFORM_WIDTH + HORIZONTAL_GAP in
  ret (next_x, y).

(** [spawn_platform] when the library calls may raise: the same handler.
    The handler's own [log_error] is taken to return. *)
Definition spawn_platform_under (f : Faults) (last_platform_y x : Z) (w : World)
  : (Z * Z) * World :=
  match spawn_platform_try_under f last_platform_y x w with
  | (inl r, w') => (r, w')
  | (inr _, w') => ((x + PLATFORM_WIDTH + HORIZONTAL_GAP, last_platform_y), w')
  end.

(** The library calls a run makes when none of them raises, in order; [w]
    is the store before the run and [w_ok] the store after it. *)
Definition calls_made (w w_ok : World) : list call_site :=
  [platform_rect; platform_log]
  ++ (if (length (obstacles w) <? length (obstacles w_ok))%nat
      then [obstacle_rect; obstacle_log] else [])
  ++ (if (length (coins w) <? length (coins w_ok))%nat
      then [coin_rect; coin_log] else []).

Definition raises (f : Faults) (c : call_site) : bool :=
  match f c with Some _ => true | None => false end.

(** The first of those calls that raises under [f], if any. *)
Definition first_fault (f : Faults) (w w_ok : World) : option call_site :=
  find (raises f) (calls_made w w_ok).

(** ** The player *)

Record Player : Type := mkPlayer {
  rect : Rect.t;
  jump_power : Q;
  gravity : Q;
  y_velocity : Q;
  is_grounded : bool;
  jump_count : Z;
  max_jumps : Z
}.

Definition set_rect (r : Rect.t) (p : Player) : Player :=
  mkPlayer r (jump_power p) (gravity p) (y_velocity p) (is_grounded p)
    (jump_count p) (max_jumps p).

Definition set_y_velocity (v : Q) (p : Player) : Player :=
  mkPlayer (rect p) (jump_power p) (gravity p) v (is_grounded p)
    (jump_count p) (max_jumps p).

Definition set_is_grounded (b : bool) (p : Player) : Player :=
  mkPlayer (rect p) (jump_power p) (gravity p) (y_velocity p) b
    (jump_count p) (max_jumps p).

Definition set_jump_count (n : Z) (p : Player) : Player :=
  mkPlayer (rect p) (jump_power p) (gravity p) (y_velocity p) (is_grounded p)
    n (max_jumps p).

(** The player that [main] constructs: [Player(rect=pygame.Rect(SCREEN_WIDTH // 2, 0, 30, 50))]. *)
Definition initial_player : Player :=
  mkPlayer (Rect.mk (SCREEN_WIDTH / 2) 0 30 50) JUMP_POWER GRAVITY 0%Q false 0 MAX_JUMPS.

(** ** Reset *)

Definition initial_platform_x : Z := SCREEN_WIDTH / 2 - PLATFORM_WIDTH / 2.
(** [int(SCREEN_HEIGHT * 0.7)], which is 420 (also in double precision,
    where the product rounds to 420.0). *)
Definition initial_platform_y : Z := int_of (Q_of_Z SCREEN_HEIGHT * (7 # 10)).

(** [reset_game]: returns [(last_platform_x, last_platform_y, score, started)]
    together with the mutated player and collections. *)
Definition reset_game (player : Player) (w : World)
  : (Z * Z * Z * bool) * Player * World :=
  (* platforms.clear(); obstacles.clear(); coins.clear() *)
  let w := mkWorld [] [] [] (rng w) in
  let score := 0 in
  let started := false in
  let w := mkWorld
             (platforms w ++
                [Rect.mk initial_platform_x initial_platform_y PLATFORM_WIDTH PLATFORM_HEIGHT])
             (obstacles w) (coins w) (rng w) in
  let player :=
    set_rect (Rect.set_x (initial_platform_x + PLATFORM_WIDTH / 2
                          - Rect.width (rect player) / 2) (rect player)) player in
  let player :=
    set_rect (Rect.set_y (initial_platform_y - Rect.height (rect player)) (rect player))
      player in
  let player := set_y_velocity 0%Q player in
  let player := set_is_grounded true player in
  let player := set_jump_count 0 player in
  let next_x := initial_platform_x + PLATFORM_WIDTH + HORIZONTAL_GAP in
  let '((last_platform_x, last_platform_y), w) :=
    spawn_platform initial_platform_y next_x w in
  ((last_platform_x, last_platform_y, score, started), player, w).

(** The player as [reset_game] leaves it: centred on the initial roof,
    standing on it, at rest. *)
Definition reset_player (p : Player) : Player :=
  mkPlayer
    (Rect.mk (initial_platform_x + PLATFORM_WIDTH / 2 - Rect.width (rect p) / 2)
       (initial_platform_y - Rect.height (rect p))
       (Rect.width (rect p)) (Rect.height (rect p)))
    (jump_power p) (gravity p) 0%Q true 0 (max_jumps p).

(** What a caller can see of a [reset_game] call: the returned tuple, the
    player and the three lists. *)
Definition observe (res : (Z * Z * Z * bool) * Player * World)
  : (Z * Z * Z * bool) * Player * list Rect.t * list Rect.t * list Rect.t :=
  let '(r, p, w) := res in (r, p, platforms w, obstacles w, coins w).

(** Sample random sources: constant draws, and the draws 0, 1, 2, ... *)
Definition constant_draws (v : Z) : Rng := mkRng (fun _ => v) 0.
Definition counting_draws : Rng := mkRng (fun n => Z.of_nat n) 0.

(** ** The frame loop *)

Record Game : Type := mkGame {
  player : Player;
  world : World;
  last_platform_x : Z;
  last_platform_y : Z;
  score : Z;
  game_started : bool;
  running : bool
}.

Definition set_player (p : Player) (s : Game) : Game :=
  mkGame p (world s) (last_platform_x s) (last_platform_y s) (score s)
    (game_started s) (running s).

Definition set_world (w : World) (s : Game) : Game :=
  mkGame (player s) w (last_platform_x s) (last_platform_y s) (score s)
    (game_started s) (running s).

Definition set_running (b : bool) (s : Game) : Game :=
  mkGame (player s) (world s) (last_platform_x s) (last_platform_y s) (score s)
    (game_started s) b.

Definition set_game_started (b : bool) (s : Game) : Game :=
  mkGame (player s) (world s) (last_platform_x s) (last_platform_y s) (score s)
    b (running s).

(** The state [main] enters its loop with. *)
Definition initial_game (g : Rng) : Game :=
  let '((lx, ly, sc, st), p, w) := reset_game initial_player (mkWorld [] [] [] g) in
  mkGame p w lx ly sc st true.

(** [last_platform_x, last_platform_y, score, game_started = reset_game(...)] *)
Definition do_reset (s : Game) : Game :=
  let '((lx, ly, sc, st), p, w) := reset_game (player s) (world s) in
  mkGame p w lx ly sc st (running s).

(** *** Events *)

Inductive event : Type := QUIT | KEYDOWN_SPACE | OTHER_EVENT.

Definition handle_event (s : Game) (e : event) : Game :=
  match e with
  | QUIT => set_running false s
  | KEYDOWN_SPACE =>
      if negb (game_started s) then set_game_started true s
      else if jump_count (player s) <? max_jumps (player s) then
        let p := player s in
        let p := set_y_velocity (jump_power p) p in
        let p := set_jump_count (jump_count p + 1) p in
        let p := set_is_grounded false p in
        set_player p s
      else s
  | OTHER_EVENT => s
  end.

(** *** Gravity and movement *)

(** Returns the moved player with [dy] and [old_bottom]. *)
Definition integrate (dt : Q) (p : Player) : Player * Q * Z :=
  let p := set_y_velocity (y_velocity p + gravity p * dt * Q_of_Z FPS)%Q p in
  let dy := (y_velocity p * dt * Q_of_Z FPS)%Q in
  let old_bottom := Rect.bottom (rect p) in
  let p := set_rect (Rect.set_y (Rect.y (rect p) + int_of dy) (rect p)) p in
  let p := set_is_grounded false p in
  (p, dy, old_bottom).

(** *** Landing check *)

Definition lands_on (p : Player) (old_bottom : Z) (platform : Rect.t) : bool :=
  Rect.colliderect (rect p) platform && (old_bottom <=? Rect.top platform).

(** The [for platform in platforms] loop with its [break]. *)
Fixpoint landing_loop (old_bottom : Z) (platforms : list Rect.t) (p : Player) : Player :=
  match platforms with
  | [] => p
  | platform :: rest =>
      if lands_on p old_bottom platform then
        let p := set_rect (Rect.set_bottom (Rect.top platform) (rect p)) p in
        let p := set_y_velocity 0%Q p in
        let p := set_is_grounded true p in
        let p := set_jump_count 0 p in
        p
      else landing_loop old_bottom rest p
  end.

Definition landing_check (dy : Q) (old_bottom : Z) (platforms : list Rect.t)
    (p : Player) : Player :=
  if Qltb 0 dy then landing_loop old_bottom platforms p else p.

(** *** Scrolling, spawning, pruning *)

Definition shift (d : Z) (items : list Rect.t) : list Rect.t :=
  map (fun item => Rect.set_x (Rect.x item - d) item) items.

Definition scroll_world (d : Z) (s : Game) : Game :=
  let w := world s in
  let w := mkWorld (shift d (platforms w)) (shift d (obstacles w)) (shift d (coins w))
             (rng w) in
  mkGame (player s) w (last_platform_x s - d) (last_platform_y s) (score s)
    (game_started s) (running s).

Definition spawn_if_needed (s : Game) : Game :=
  if last_platform_x s <? SCREEN_WIDTH then
    let '((lx, ly), w) := spawn_platform (last_platform_y s) (last_platform_x s) (world s) in
    mkGame (player s) w lx ly (score s) (game_started s) (running s)
  else s.

(** [obj_list[:] = [item for item in obj_list if item.right > 0]] *)
Definition prune (items : list Rect.t) : list Rect.t :=
  filter (fun item => Rect.right item >? 0) items.

Definition prune_world (s : Game) : Game :=
  let w := world s in
  set_world (mkWorld (prune (platforms w)) (prune (obstacles w)) (prune (coins w)) (rng w)) s.

(** *** Coin collection *)

(** [l.remove(v)]: drops the first element equal to [v]; [None] stands for
    the [ValueError] raised when there is none. *)
Fixpoint list_remove (v : Rect.t) (l : list Rect.t) : option (list Rect.t) :=
  match l with
  | [] => None
  | a :: l' =>
      if Rect.eqb a v then Some l'
      else match list_remove v l' with
           | Some r => Some (a :: r)
           | None => None
           end
  end.

(** The [for coin in coins[:]] loop: [snapshot] is the copy iterated over,
    the pair is the live coin list and the score.  The flag tells whether
    [remove] raised; the state reached by then is kept. *)
Fixpoint coin_loop (pr : Rect.t) (snapshot : list Rect.t) (st : list Rect.t * Z)
  : list Rect.t * Z * bool :=
  match snapshot with
  | [] => (st, false)
  | coin :: rest =>
      if Rect.colliderect pr coin then
        match list_remove coin (fst st) with
        | Some cs => coin_loop pr rest (cs, snd st + 1)
        | None => (st, true)
        end
      else coin_loop pr rest st
  end.

Definition coin_collection (pr : Rect.t) (cs : list Rect.t) (sc : Z)
  : list Rect.t * Z * bool :=
  coin_loop pr cs (cs, sc).

(** *** Terminal conditions *)

(** The [for obstacle in obstacles[:]] loop: reset and [break] at the first hit. *)
Fixpoint obstacle_loop (snapshot : list Rect.t) (s : Game) : Game :=
  match snapshot with
  | [] => s
  | obstacle :: rest =>
      if Rect.colliderect (rect (player s)) obstacle then do_reset s
      else obstacle_loop rest s
  end.

Definition obstacle_collision (s : Game) : Game :=
  obstacle_loop (obstacles (world s)) s.

Definition fell_off (s : Game) : Game :=
  if Rect.top (rect (player s)) >? SCREEN_HEIGHT then do_reset s else s.

(** *** One iteration of the loop *)

(** The body of [if game_started:] up to and including coin collection.
    The flag tells whether the coin loop raised. *)
Definition advance (dt : Q) (s : Game) : Game * bool :=
  let '(p, dy, old_bottom) := integrate dt (player s) in
  let p := landing_check dy old_bottom (platforms (world s)) p in
  let s := set_player p s in
  let scroll := (SCROLL_SPEED * dt * Q_of_Z FPS)%Q in
  let s := scroll_world (int_of scroll) s in
  let s := spawn_if_needed s in
  let s := prune_world s in
  let '(cs, sc, raised) :=
    coin_collection (rect (player s)) (coins (world s)) (score s) in
  let w := world s in
  (mkGame (player s) (mkWorld (platforms w) (obstacles w) cs (rng w))
     (last_platform_x s) (last_platform_y s) sc (game_started s) (running s),
   raised).

(** The whole body of [if game_started:].  An exception leaves the loop's
    [try] and is answered by [running = False]. *)
Definition update (dt : Q) (s : Game) : Game :=
  let (s, raised) := advance dt s in
  if raised then set_running false s
  else
    let s := obstacle_collision s in
    fell_off s.

(** One pass of the [while running] body (drawing left out): [ms] is what
    [clock.tick(FPS)] returned, [events] what [pygame.event.get()] returned. *)
Definition frame (ms : Z) (events : list event) (s : Game) : Game :=
  let dt := (Q_of_Z ms / Q_of_Z 1000)%Q in
  let s := fold_left handle_event events s in
  if game_started s then update dt s else s.

(** ** Vocabulary for the statements *)

(** The jump budget. *)
Definition jump_inv (p : Player) : Prop := 0 <= jump_count p <= max_jumps p.

(** A space press that the event handler turns into a jump. *)
Definition jump_accepted (s : Game) : bool :=
  game_started s && (jump_count (player s) <? max_jumps (player s)).

(** The landing check of this tick finds a platform. *)
Definition landed (dt : Q) (s : Game) : bool :=
  let '(p, dy, old_bottom) := integrate dt (player s) in
  Qltb 0 dy && existsb (lands_on p old_bottom) (platforms (world s)).

(** The two terminal conditions, as tested on the state they are tested on. *)
Definition hits_obstacle (s : Game) : bool :=
  existsb (Rect.colliderect (rect (player s))) (obstacles (world s)).

Definition off_screen (s : Game) : bool :=
  Rect.top (rect (player s)) >? SCREEN_HEIGHT.

(** This tick ends in at least one [reset_game]. *)
Definition resets (dt : Q) (s : Game) : bool :=
  let s1 := fst (advance dt s) in hits_obstacle s1 || off_screen s1.

(** What a state looks like once [reset_game] has run in it. *)
Definition freshly_reset (s : Game) : Prop :=
  game_started s = false
  /\ score s = 0
  /\ (exists y, 370 <= y <= 400
        /\ platforms (world s) = [Rect.mk 325 420 PLATFORM_WIDTH PLATFORM_HEIGHT;
                                  Rect.mk 655 y PLATFORM_WIDTH PLATFORM_HEIGHT]
        /\ last_platform_y s = y)
  /\ last_platform_x s = 985
  /\ Rect.bottom (rect (player s)) = 420
  /\ Rect.x (rect (player s)) = 400 - Rect.width (rect (player s)) / 2
  /\ y_velocity (player s) = 0%Q
  /\ jump_count (player s) = 0
  /\ is_grounded (player s) = true.

(** The coins overlapping the player, and the others. *)
Definition collected (pr : Rect.t) (cs : list Rect.t) : list Rect.t :=
  filter (Rect.colliderect pr) cs.

Definition remaining (pr : Rect.t) (cs : list Rect.t) : list Rect.t :=
  filter (fun c => negb (Rect.colliderect pr c)) cs.

(** Sample states.  [crash_state]: Playing, the player standing on a roof
    and overlapping the crate on it.  [fall_state]: Playing, both jumps
    used, the player dropping through the gap between two roofs, its top two
    pixels above the bottom of the screen. *)
Definition crash_state : Game :=
  mkGame
    (mkPlayer (Rect.mk 385 350 30 50) JUMP_POWER GRAVITY 0%Q true 0 MAX_JUMPS)
    (mkWorld [Rect.mk 310 400 PLATFORM_WIDTH PLATFORM_HEIGHT;
              Rect.mk 640 380 PLATFORM_WIDTH PLATFORM_HEIGHT]
       [Rect.mk 410 370 30 30] [] (constant_draws 0))
    970 380 3 true true.

Definition fall_state : Game :=
  mkGame
    (mkPlayer (Rect.mk 385 598 30 50) JUMP_POWER GRAVITY (10 # 1) false 2 MAX_JUMPS)
    (mkWorld [Rect.mk 250 300 PLATFORM_WIDTH PLATFORM_HEIGHT;
              Rect.mk 580 320 PLATFORM_WIDTH PLATFORM_HEIGHT]
       [] [] (constant_draws 0))
    910 320 3 true true.

(** The states the loop of [main] can be in at the top of an iteration:
    the state set up before the loop, and what a pass of the body makes of a
    state in which the loop is still running. *)
Inductive reachable : Game -> Prop :=
| reach_initial : forall g, reachable (initial_game g)
| reach_frame : forall ms events s,
    reachable s -> running s = true -> reachable (frame ms events s).

(** [l1] is [l2] with some elements left out, the others in their order. *)
Inductive sublist {A : Type} : list A -> list A -> Prop :=
| sublist_nil : sublist [] []
| sublist_skip : forall a l1 l2, sublist l1 l2 -> sublist l1 (a :: l2)
| sublist_keep : forall a l1 l2, sublist l1 l2 -> sublist (a :: l1) (a :: l2).

(** ** Vocabulary for the world invariants *)

(** An obstacle as the generator places it on the roof at [(x, y)]: a
    30 x 30 box standing on the roof, inside the edge padding. *)
Definition obstacle_on (x y : Z) (o : Rect.t) : Prop :=
  Rect.width o = fst OBSTACLE_SIZE
  /\ Rect.height o = snd OBSTACLE_SIZE
  /\ Rect.bottom o = y
  /\ x + EDGE_PADDING <= Rect.x o
  /\ Rect.right o <= x + PLATFORM_WIDTH - EDGE_PADDING.

(** A coin as the generator places it over the roof at [(x, y)]: a 20 x 20
    box whose bottom is [COIN_OFFSET_ABOVE_ROOF] above the roof, inside the
    edge padding. *)
Definition coin_over (x y : Z) (c : Rect.t) : Prop :=
  Rect.width c = fst COIN_SIZE
  /\ Rect.height c = snd COIN_SIZE
  /\ Rect.bottom c = y - COIN_OFFSET_ABOVE_ROOF
  /\ x + EDGE_PADDING <= Rect.x c
  /\ Rect.right c <= x + PLATFORM_WIDTH - EDGE_PADDING.

(** A platform as the program makes them: 150 x 10, its roof between
    [PLATFORM_MIN_Y] and the initial roof. *)
Definition roof (p : Rect.t) : Prop :=
  Rect.width p = PLATFORM_WIDTH
  /\ Rect.height p = PLATFORM_HEIGHT
  /\ PLATFORM_MIN_Y <= Rect.y p <= initial_platform_y.

(** The platform list as a chain that ends at the frontier [(fx, fy)]: each
    platform is a [roof]; the next one starts [PLATFORM_WIDTH +
    HORIZONTAL_GAP] further right, at most [PLATFORM_Y_DELTA] higher or
    lower; the last one is the platform the frontier was computed from. *)
Fixpoint chain_to (fx fy : Z) (l : list Rect.t) : Prop :=
  match l with
  | [] => True
  | p :: rest =>
      roof p
      /\ match rest with
         | [] => Rect.x p + PLATFORM_WIDTH + HORIZONTAL_GAP = fx /\ Rect.y p = fy
         | q :: _ =>
             Rect.x q = Rect.x p + PLATFORM_WIDTH + HORIZONTAL_GAP
             /\ Z.abs (Rect.y q - Rect.y p) <= PLATFORM_Y_DELTA
         end
      /\ chain_to fx fy rest
  end.

Definition on_a_roof (plats : list Rect.t) (o : Rect.t) : Prop :=
  exists p, In p plats /\ obstacle_on (Rect.x p) (Rect.y p) o.

Definition over_a_roof (plats : list Rect.t) (c : Rect.t) : Prop :=
  exists p, In p plats /\ coin_over (Rect.x p) (Rect.y p) c.

(** The player of [main]: only its [y], velocity, grounded flag and jump
    count ever change. *)
Definition standard_player (p : Player) : Prop :=
  Rect.x (rect p) = 385
  /\ Rect.width (rect p) = 30
  /\ Rect.height (rect p) = 50
  /\ jump_power p = JUMP_POWER
  /\ gravity p = GRAVITY
  /\ max_jumps p = MAX_JUMPS.

(** The size and the physics constants of the player of [main]. *)
Definition player_kind (p : Player) : Prop :=
  Rect.width (rect p) = 30
  /\ Rect.height (rect p) = 50
  /\ jump_power p = JUMP_POWER
  /\ gravity p = GRAVITY
  /\ max_jumps p = MAX_JUMPS.

Definition clear_of (pr : Rect.t) (l : list Rect.t) : Prop :=
  forall r, In r l -> Rect.colliderect pr r = false.

(** The part of the invariant that concerns the generated world. *)
Definition world_ok (s : Game) : Prop :=
  chain_to (last_platform_x s) (last_platform_y s) (platforms (world s))
  /\ PLATFORM_MIN_Y <= last_platform_y s <= PLATFORM_MAX_Y
  /\ Forall (on_a_roof (platforms (world s))) (obstacles (world s))
  /\ Forall (over_a_roof (platforms (world s))) (coins (world s)).

(** What holds at the top of every iteration of the loop. *)
Definition game_inv (s : Game) : Prop :=
  standard_player (player s)
  /\ world_ok s
  /\ clear_of (rect (player s)) (obstacles (world s))
  /\ clear_of (rect (player s)) (coins (world s))
  /\ Rect.top (rect (player s)) <= SCREEN_HEIGHT
  /\ (is_grounded (player s) = true ->
      y_velocity (player s) = 0%Q /\ jump_count (player s) = 0)
  /\ 0 <= score s
  /\ (game_started s = false -> freshly_reset s).

Definition is_quit (e : event) : bool :=
  match e with QUIT => true | _ => false end.

Definition is_space (e : event) : bool :=
  match e with KEYDOWN_SPACE => true | _ => false end.

(** [int(SCROLL_SPEED * dt * FPS)] for a tick of [ms] milliseconds. *)
Definition scroll_px (ms : Z) : Z :=
  int_of (SCROLL_SPEED * (Q_of_Z ms / Q_of_Z 1000) * Q_of_Z FPS)%Q.

(** The states the loop reaches when no frame takes longer than [limit]
    milliseconds. *)
Inductive reachable_paced (limit : Z) : Game -> Prop :=
| paced_initial : forall g, reachable_paced limit (initial_game g)
| paced_frame : forall ms events s,
    reachable_paced limit s -> running s = true -> 0 <= ms <= limit ->
    reachable_paced limit (frame ms events s).

(** The frontier is at or beyond the right screen edge and there is a
    platform. *)
Definition ahead (s : Game) : Prop :=
  SCREEN_WIDTH <= last_platform_x s /\ platforms (world s) <> [].

(** The number of space presses among the events of a frame. *)
Definition space_presses (events : list event) : Z :=
  Z.of_nat (length (filter is_space events)).

(** The building drawn under a platform:
    [pygame.Rect(platform.x, platform.y, platform.width, SCREEN_HEIGHT - platform.y)]. *)
Definition building_rect (platform : Rect.t) : Rect.t :=
  Rect.mk (Rect.x platform) (Rect.y platform) (Rect.width platform)
    (SCREEN_HEIGHT - Rect.y platform).

(** The world [reset_game] chains its spawn into: the initial platform
    alone. *)
Definition world_at_reset (g : Rng) : World :=
  mkWorld [Rect.mk 325 420 PLATFORM_WIDTH PLATFORM_HEIGHT] [] [] g.

(** A state that is not started is the result of a reset. *)
Definition from_reset (s : Game) : Prop :=
  game_started s = false ->
  exists s0, player_kind (player s0) /\ s = do_reset s0.

(** The scroll, spawn and prune steps of a tick, for a scroll of [d]
    pixels. *)
Definition scroll_spawn_prune (d : Z) (s : Game) : Game :=
  prune_world (spawn_if_needed (scroll_world d s)).

(** * Properties *)

(** ** The random source *)

Lemma randint_empty (a b : Z) (g : Rng) :
  b < a -> randint a b g = (inr ValueError, g).
Proof.
  intros H. unfold randint.
  destruct (Z.ltb_spec b a); [reflexivity | lia].
Qed.

Lemma randint_range (a b : Z) (g : Rng) :
  a <= b ->
  exists v, randint a b g = (inl v, snd (draw g)) /\ a <= v <= b.
Proof.
  intros H. unfold randint.
  destruct (Z.ltb_spec b a); [lia |].
  unfold draw. cbn [snd].
  eexists. split; [reflexivity |].
  pose proof (Z.mod_pos_bound (tape g (cursor g)) (b - a + 1)). lia.
Qed.

(** ** Level generator *)

Lemma spawn_platform_try_unfold (last_platform_y x : Z) :
  spawn_platform_try last_platform_y x =
  (y <- m_randint (Z.max PLATFORM_MIN_Y (last_platform_y - PLATFORM_Y_DELTA))
                  (Z.min PLATFORM_MAX_Y (last_platform_y + PLATFORM_Y_DELTA)) ;;
   append_platform (Rect.mk x y PLATFORM_WIDTH PLATFORM_HEIGHT) ;;;
   extras x y ;;;
   ret (x + PLATFORM_WIDTH + HORIZONTAL_GAP, y)).
Proof. reflexivity. Qed.

Lemma m_randint_padding (hi : Z) (w : World) :
  EDGE_PADDING <= hi ->
  exists dx, m_randint EDGE_PADDING hi w = (inl dx, set_rng (snd (draw (rng w))) w)
             /\ EDGE_PADDING <= dx <= hi.
Proof.
  intros H. unfold m_randint.
  destruct (randint_range EDGE_PADDING hi (rng w) H) as (v & E & B).
  rewrite E. exists v. split; [reflexivity | exact B].
Qed.

Lemma extras_spec (x y : Z) (w : World) :
  exists w', extras x y w = (inl tt, w')
    /\ platforms w' = platforms w
    /\ (exists os, obstacles w' = obstacles w ++ os /\ (length os <= 1)%nat)
    /\ (exists cs, coins w' = coins w ++ cs /\ (length cs <= 1)%nat).
Proof.
  unfold extras, when.
  destruct (SCREEN_WIDTH / 4 <? x).
  2:{ exists w. repeat split; try (exists []; rewrite app_nil_r; split; [reflexivity | simpl; lia]). }
  unfold bind at 1. unfold m_random at 1.
  destruct (random (rng w)) as [p g1].
  unfold bind at 1.
  assert (HO : exists w1, (if Qltb p OBSTACLE_CHANCE
                 then dx <- m_randint EDGE_PADDING
                              (PLATFORM_WIDTH - fst OBSTACLE_SIZE - EDGE_PADDING) ;;
                      append_obstacle
                        (Rect.mk (x + dx) (y - snd OBSTACLE_SIZE)
                           (fst OBSTACLE_SIZE) (snd OBSTACLE_SIZE))
                 else ret tt) (set_rng g1 w) = (inl tt, w1)
              /\ platforms w1 = platforms w /\ coins w1 = coins w
              /\ exists os, obstacles w1 = obstacles w ++ os /\ (length os <= 1)%nat).
  { destruct (Qltb p OBSTACLE_CHANCE).
    - destruct (m_randint_padding (PLATFORM_WIDTH - fst OBSTACLE_SIZE - EDGE_PADDING)
                  (set_rng g1 w)) as (dx & E & _); [vm_compute; discriminate |].
      unfold bind. rewrite E. eexists. split; [reflexivity |].
      cbn. repeat split. eexists. split; [reflexivity | simpl; lia].
    - eexists. split; [reflexivity |]. cbn. repeat split.
      exists []. rewrite app_nil_r. split; [reflexivity | simpl; lia]. }
  destruct HO as (w1 & E1 & P1 & C1 & os & O1 & L1).
  rewrite E1.
  unfold bind at 1. unfold m_random at 1.
  destruct (random (rng w1)) as [q g2].
  destruct (Qltb q COIN_CHANCE).
  - destruct (m_randint_padding (PLATFORM_WIDTH - fst COIN_SIZE - EDGE_PADDING)
                (set_rng g2 w1)) as (dx & E & _); [vm_compute; discriminate |].
    unfold bind. rewrite E. eexists. split; [reflexivity |].
    cbn. rewrite P1, C1, O1. repeat split.
    + exists os. split; [reflexivity | exact L1].
    + eexists. split; [reflexivity | simpl; lia].
  - eexists. split; [reflexivity |].
    cbn. rewrite P1, C1, O1. repeat split.
    + exists os. split; [reflexivity | exact L1].
    + exists []. rewrite app_nil_r. split; [reflexivity | simpl; lia].
Qed.

(** The two outcomes of the [try] block: the range for [y] is empty and
    [randint] raises with the store untouched, or a platform is appended at a
    [y] inside the range and the block completes. *)
Lemma spawn_platform_try_spec (last_platform_y x : Z) (w : World) :
  let lo := Z.max PLATFORM_MIN_Y (last_platform_y - PLATFORM_Y_DELTA) in
  let hi := Z.min PLATFORM_MAX_Y (last_platform_y + PLATFORM_Y_DELTA) in
  (hi < lo /\ spawn_platform_try last_platform_y x w = (inr ValueError, w))
  \/
  (lo <= hi /\ exists y w',
      spawn_platform_try last_platform_y x w
        = (inl (x + PLATFORM_WIDTH + HORIZONTAL_GAP, y), w')
      /\ lo <= y <= hi
      /\ platforms w' = platforms w ++ [Rect.mk x y PLATFORM_WIDTH PLATFORM_HEIGHT]
      /\ (exists os, obstacles w' = obstacles w ++ os /\ (length os <= 1)%nat)
      /\ (exists cs, coins w' = coins w ++ cs /\ (length cs <= 1)%nat)).
Proof.
  intros lo hi. rewrite spawn_platform_try_unfold. fold lo hi.
  destruct (Z.lt_ge_cases hi lo) as [Hlt | Hge].
  - left. split; [exact Hlt |].
    unfold bind at 1. unfold m_randint.
    rewrite (randint_empty lo hi (rng w) Hlt).
    destruct w; reflexivity.
  - right. split; [exact Hge |].
    destruct (randint_range lo hi (rng w) Hge) as (y & E & B).
    unfold bind at 1. unfold m_randint. rewrite E.
    unfold bind at 1. unfold append_platform at 1.
    destruct (extras_spec x y
                (mkWorld (platforms (set_rng (snd (draw (rng w))) w)
                            ++ [Rect.mk x y PLATFORM_WIDTH PLATFORM_HEIGHT])
                   (obstacles (set_rng (snd (draw (rng w))) w))
                   (coins (set_rng (snd (draw (rng w))) w))
                   (rng (set_rng (snd (draw (rng w))) w))))
      as (w' & E' & P & O & C).
    exists y, w'. unfold bind. rewrite E'. unfold ret.
    split; [reflexivity |]. split; [exact B |].
    cbn in P, O, C. auto.
Qed.

(** C1. Whenever [spawn_platform] appends a platform, its [y] lies in the
    global band [PLATFORM_MIN_Y..PLATFORM_MAX_Y] and within
    [PLATFORM_Y_DELTA] of the previous platform's [y]; it appends nothing
    only when that intersection is empty.  With a previous [y] of 420 a
    platform is always appended and its [y] lies in [370..400]. *)
Theorem spawn_platform_y_bounds :
  (forall last_platform_y x w,
      let w' := snd (spawn_platform last_platform_y x w) in
      (platforms w' = platforms w
       /\ Z.min PLATFORM_MAX_Y (last_platform_y + PLATFORM_Y_DELTA)
          < Z.max PLATFORM_MIN_Y (last_platform_y - PLATFORM_Y_DELTA))
      \/
      (exists y,
          platforms w' = platforms w ++ [Rect.mk x y PLATFORM_WIDTH PLATFORM_HEIGHT]
          /\ snd (fst (spawn_platform last_platform_y x w)) = y
          /\ PLATFORM_MIN_Y <= y <= PLATFORM_MAX_Y
          /\ Z.abs (y - last_platform_y) <= PLATFORM_Y_DELTA))
  /\
  (forall x w,
      exists y,
        platforms (snd (spawn_platform 420 x w))
          = platforms w ++ [Rect.mk x y PLATFORM_WIDTH PLATFORM_HEIGHT]
        /\ 370 <= y <= 400).
Proof.
  split.
  - intros last x w w'. subst w'. unfold spawn_platform.
    destruct (spawn_platform_try_spec last x w)
      as [(Hlt & E) | (Hle & y & w1 & E & B & P & _)]; rewrite E; cbn [fst snd].
    + left. split; [reflexivity | exact Hlt].
    + right. exists y. split; [exact P |]. split; [reflexivity |].
      unfold PLATFORM_MIN_Y, PLATFORM_MAX_Y, PLATFORM_Y_DELTA in *. lia.
  - intros x w. unfold spawn_platform.
    destruct (spawn_platform_try_spec 420 x w)
      as [(Hlt & E) | (Hle & y & w1 & E & B & P & _)]; rewrite E; cbn [fst snd].
    + exfalso. revert Hlt. vm_compute. discriminate.
    + exists y. split; [exact P |].
      unfold PLATFORM_MIN_Y, PLATFORM_MAX_Y, PLATFORM_Y_DELTA in B. lia.
Qed.

(** *** Failures inside the [try] block *)

Lemma length_grew {A : Type} (l : list A) (a : A) :
  (length l <? length (l ++ [a]))%nat = true.
Proof. rewrite length_app. cbn. apply Nat.ltb_lt. lia. Qed.

Lemma length_same {A : Type} (l : list A) : (length l <? length l)%nat = false.
Proof. apply Nat.ltb_irrefl. Qed.

(** Runs the monadic operations of a [try] body on the store at hand. *)
Ltac run_monad :=
  unfold when, bind, ret, lib, append_platform, append_obstacle, append_coin,
    m_random, m_randint, random, randint, draw, set_rng;
  change (PLATFORM_WIDTH - fst OBSTACLE_SIZE - EDGE_PADDING <? EDGE_PADDING) with false;
  change (PLATFORM_WIDTH - fst COIN_SIZE - EDGE_PADDING <? EDGE_PADDING) with false.

Ltac tidy :=
  cbv beta iota; cbn [rng platforms obstacles coins tape cursor fst snd].

(** Splits on whether each library call raises, in the order the run
    reaches them; [HO] and [HC] are the outcomes of the two chance tests. *)
Ltac split_faults f HO HC :=
  repeat (tidy; rewrite ?HO, ?HC;
          match goal with
          | |- context [f ?c] => destruct (f c) eqn:?
          end);
  tidy; rewrite ?HO, ?HC; tidy.

(** C6. [spawn_platform] under failing library calls, against the run in
    which nothing fails.  The call always returns
    [x + PLATFORM_WIDTH + HORIZONTAL_GAP].  If the range for [y] is empty it
    returns the previous [y] and leaves the store untouched.  Otherwise the
    run does what the run without failures does up to the first library call
    that raises: the platform is in the list unless its [pygame.Rect]
    raised, the obstacle is in the list if the failure came after its
    append, the coin only if the last [log_info] raised; nothing is taken
    back and nothing else is added, and the previous [y] is returned, also
    when the new platform has been appended.  Without a failure the call
    returns the [y] of the platform it appended, and is the call modelled by
    [spawn_platform]. *)
Theorem spawn_platform_failure_policy :
  (forall f last_platform_y x w,
      let '((x_ok, y_ok), w_ok) := spawn_platform last_platform_y x w in
      let '((x', y'), w') := spawn_platform_under f last_platform_y x w in
      x' = x + PLATFORM_WIDTH + HORIZONTAL_GAP
      /\ tape (rng w') = tape (rng w)
      /\ if Z.min PLATFORM_MAX_Y (last_platform_y + PLATFORM_Y_DELTA)
            <? Z.max PLATFORM_MIN_Y (last_platform_y - PLATFORM_Y_DELTA)
         then y' = last_platform_y /\ w' = w
         else
           platforms w_ok
           = platforms w ++ [Rect.mk x y_ok PLATFORM_WIDTH PLATFORM_HEIGHT]
           /\ match first_fault f w w_ok with
              | None => y' = y_ok /\ w' = w_ok
              | Some c =>
                  y' = last_platform_y
                  /\ platforms w'
                     = match c with
                       | platform_rect => platforms w
                       | _ => platforms w_ok
                       end
                  /\ obstacles w'
                     = match c with
                       | platform_rect | platform_log | obstacle_rect => obstacles w
                       | _ => obstacles w_ok
                       end
                  /\ coins w'
                     = match c with
                       | coin_log => coins w_ok
                       | _ => coins w
                       end
              end)
  /\ (forall last_platform_y x w,
         spawn_platform_under no_faults last_platform_y x w
         = spawn_platform last_platform_y x w).
Proof.
  split.
  - intros f last x w.
    unfold spawn_platform, spawn_platform_under, spawn_platform_try,
      spawn_platform_try_under, first_fault, calls_made.
    run_monad. tidy.
    destruct (Z.min PLATFORM_MAX_Y (last + PLATFORM_Y_DELTA)
              <? Z.max PLATFORM_MIN_Y (last - PLATFORM_Y_DELTA)).
    { tidy. destruct w. repeat split. }
    tidy.
    destruct (SCREEN_WIDTH / 4 <? x); tidy.
    + destruct (Qltb _ OBSTACLE_CHANCE) eqn:HO; tidy;
      destruct (Qltb _ COIN_CHANCE) eqn:HC; tidy;
      rewrite ?length_grew, ?length_same; cbn [app find]; unfold raises;
      split_faults f HO HC; repeat split.
    + rewrite ?length_grew, ?length_same; cbn [app find]; unfold raises.
      assert (HC : true = true) by reflexivity.
      split_faults f HC HC; repeat split.
  - intros last x w.
    unfold spawn_platform, spawn_platform_under, spawn_platform_try,
      spawn_platform_try_under, no_faults.
    run_monad. tidy.
    destruct (Z.min PLATFORM_MAX_Y (last + PLATFORM_Y_DELTA)
              <? Z.max PLATFORM_MIN_Y (last - PLATFORM_Y_DELTA)); [reflexivity |].
    tidy. destruct (SCREEN_WIDTH / 4 <? x); [| reflexivity]. tidy.
    destruct (Qltb _ OBSTACLE_CHANCE); tidy;
      destruct (Qltb _ COIN_CHANCE); reflexivity.
Qed.

(** The spawn chained by [reset_game], with the [log_info] after
    [platforms.append] raising: the new platform stays in the list, no
    obstacle or coin is added, and the [y] returned is the previous 420, not
    the 370 of the platform. *)
Lemma spawn_platform_failure_policy_witness :
  let f := fun c => match c with platform_log => Some OSError | _ => None end in
  let '((x', y'), w') :=
    spawn_platform_under f 420 655 (world_at_reset (constant_draws 0)) in
  x' = 985 /\ y' = 420
  /\ platforms w' = [Rect.mk 325 420 PLATFORM_WIDTH PLATFORM_HEIGHT;
                     Rect.mk 655 370 PLATFORM_WIDTH PLATFORM_HEIGHT]
  /\ obstacles w' = [] /\ coins w' = [].
Proof.
  intros f.
  pose proof (proj1 spawn_platform_failure_policy f 420 655
                (world_at_reset (constant_draws 0))) as H.
  vm_compute in H. vm_compute.
  destruct H as (H1 & _ & _ & H2 & H3 & H4 & H5).
  repeat split; assumption.
Defined.

(** ** Reset *)

Lemma initial_platform_x_eq : initial_platform_x = 325.
Proof. reflexivity. Qed.

Lemma initial_platform_y_eq : initial_platform_y = 420.
Proof. reflexivity. Qed.

(** [reset_game] in closed form: the player is repositioned on the initial
    roof, the lists are rebuilt from nothing, and the chained spawn starts
    from the initial roof at [x = 655]. *)
Lemma reset_game_unfold (p : Player) (w : World) :
  reset_game p w =
  (let '((lx, ly), w') :=
     spawn_platform 420 655 (mkWorld [Rect.mk 325 420 PLATFORM_WIDTH PLATFORM_HEIGHT]
                               [] [] (rng w)) in
   ((lx, ly, 0, false), reset_player p, w')).
Proof. reflexivity. Qed.

Lemma reset_game_spec (p : Player) (w : World) :
  exists y w',
    reset_game p w = ((985, y, 0, false), reset_player p, w')
    /\ 370 <= y <= 400
    /\ platforms w' = [Rect.mk 325 420 PLATFORM_WIDTH PLATFORM_HEIGHT;
                       Rect.mk 655 y PLATFORM_WIDTH PLATFORM_HEIGHT]
    /\ (length (obstacles w') <= 1)%nat
    /\ (length (coins w') <= 1)%nat.
Proof.
  rewrite reset_game_unfold. unfold spawn_platform.
  destruct (spawn_platform_try_spec 420 655
              (mkWorld [Rect.mk 325 420 PLATFORM_WIDTH PLATFORM_HEIGHT] [] [] (rng w)))
    as [(Hlt & E) | (Hle & y & w1 & E & B & P & (os & O & LO) & (cs & C & LC))].
  - exfalso. revert Hlt. vm_compute. discriminate.
  - rewrite E. exists y, w1. split; [reflexivity |].
    split; [unfold PLATFORM_MIN_Y, PLATFORM_MAX_Y, PLATFORM_Y_DELTA in B; lia |].
    split; [exact P |].
    cbn in O, C. rewrite O, C. split; assumption.
Qed.

Lemma reset_player_idem (p : Player) : reset_player (reset_player p) = reset_player p.
Proof. reflexivity. Qed.

(** C9. After every [reset_game] the platform list holds exactly two
    platforms, the initial one at (325, 420) and the chained one at
    [x = 655]; since 655 exceeds [SCREEN_WIDTH // 4 = 200] the obstacle and
    coin branches run, and for some draws the obstacle and coin lists are
    non-empty right after the reset, with the game not started (for other
    draws both are empty). *)
Theorem reset_game_two_platforms :
  (forall p w,
      let '((lx, ly, sc, started), _, w') := reset_game p w in
      platforms w' = [Rect.mk 325 420 PLATFORM_WIDTH PLATFORM_HEIGHT;
                      Rect.mk 655 ly PLATFORM_WIDTH PLATFORM_HEIGHT]
      /\ 370 <= ly <= 400
      /\ lx = 985 /\ sc = 0 /\ started = false)
  /\ SCREEN_WIDTH / 4 = 200
  /\ (SCREEN_WIDTH / 4 <? initial_platform_x + PLATFORM_WIDTH + HORIZONTAL_GAP) = true
  /\ (forall p w,
         exists g,
           let '((_, _, _, started), _, w') := reset_game p (set_rng g w) in
           obstacles w' <> [] /\ coins w' <> [] /\ started = false)
  /\ (forall p w,
         exists g,
           let '(_, _, w') := reset_game p (set_rng g w) in
           obstacles w' = [] /\ coins w' = []).
Proof.
  split; [| split; [reflexivity | split; [reflexivity | split]]].
  - intros p w. destruct (reset_game_spec p w) as (y & w' & E & B & P & _).
    rewrite E. auto.
  - intros p w. exists (constant_draws 0). rewrite reset_game_unfold.
    vm_compute. repeat split; discriminate.
  - intros p w. exists (constant_draws (2 ^ 52)). rewrite reset_game_unfold.
    vm_compute. split; reflexivity.
Qed.

(** C8, as stated, fails: the second [reset_game] draws afresh, so the
    chained platform (and with it the returned frontier [y]) differs from
    the one the first call produced. *)
Lemma reset_game_twice_differs :
  let once := reset_game initial_player (mkWorld [] [] [] counting_draws) in
  let twice := reset_game (snd (fst once)) (snd once) in
  observe twice <> observe once.
Proof. vm_compute. discriminate. Qed.

(** C8, amended. A second [reset_game] changes nothing that is not drawn at
    random: the player, the score, the started flag, the frontier [x] and the
    initial platform are the same after two calls as after one, and both
    leave two platforms; the chained platform, the obstacle and coin lists
    and the frontier [y] are drawn again.  If the second call is given the
    draws of the first, it yields exactly the state of the first. *)
Theorem reset_game_idempotent_up_to_draws :
  forall p w,
    let '((lx1, ly1, sc1, st1), p1, w1) := reset_game p w in
    let '((lx2, ly2, sc2, st2), p2, w2) := reset_game p1 w1 in
    p2 = p1 /\ lx2 = lx1 /\ sc2 = sc1 /\ st2 = st1
    /\ hd_error (platforms w2) = hd_error (platforms w1)
    /\ length (platforms w2) = 2%nat
    /\ length (platforms w1) = 2%nat
    /\ reset_game p1 (set_rng (rng w) w1) = reset_game p w.
Proof.
  intros p w.
  destruct (reset_game_spec p w) as (y & w1 & E & B & P & _).
  rewrite E.
  destruct (reset_game_spec (reset_player p) w1) as (y2 & w2 & E2 & B2 & P2 & _).
  rewrite E2, P, P2.
  split; [apply reset_player_idem |].
  do 6 (split; [reflexivity |]).
  rewrite reset_game_unfold, reset_player_idem.
  rewrite reset_game_unfold in E. cbn [rng set_rng]. exact E.
Qed.

(** ** Landing *)

Lemma Qltb_lt (a b : Q) : Qltb a b = true <-> (a < b)%Q.
Proof.
  unfold Qltb. rewrite negb_true_iff.
  split; intros H.
  - apply Qnot_le_lt. intros L. apply Qle_bool_iff in L. congruence.
  - destruct (Qle_bool b a) eqn:E; [| reflexivity].
    apply Qle_bool_iff in E. exfalso. exact (Qlt_not_le _ _ H E).
Qed.

(** The loop stops at the first platform the test accepts. *)
Lemma landing_loop_find (old_bottom : Z) (plats : list Rect.t) (p : Player) :
  landing_loop old_bottom plats p =
  match find (lands_on p old_bottom) plats with
  | Some pl =>
      mkPlayer (Rect.set_bottom (Rect.top pl) (rect p)) (jump_power p) (gravity p)
        0%Q true 0 (max_jumps p)
  | None => p
  end.
Proof.
  induction plats as [| pl rest IH]; cbn [landing_loop find].
  - reflexivity.
  - destruct (lands_on p old_bottom pl); [reflexivity | exact IH].
Qed.

Lemma find_app_first {A : Type} (f : A -> bool) (before after : list A) (a : A) :
  (forall b, In b before -> f b = false) -> f a = true ->
  find f (before ++ a :: after) = Some a.
Proof.
  intros Hb Ha. induction before as [| b before IH]; cbn.
  - rewrite Ha. reflexivity.
  - rewrite (Hb b (or_introl eq_refl)). apply IH.
    intros c Hc. apply Hb. right. exact Hc.
Qed.

(** C3. Landing resolution of a tick.  [old_bottom] is the player's bottom
    before the move.  The check runs only when [dy > 0]; it then takes the
    first platform, in list (spawn) order, that the moved player overlaps
    and whose top is at or below [old_bottom]: the player's bottom is put on
    that top, the velocity set to 0, grounded set, the jump count set to 0,
    and the platforms after it play no part.  With no such platform, or with
    [dy <= 0], the check changes nothing. *)
Theorem landing_resolution :
  forall dt p plats,
    let '(p1, dy, old_bottom) := integrate dt p in
    let p2 := landing_check dy old_bottom plats p1 in
    old_bottom = Rect.bottom (rect p)
    /\ (Qltb 0 dy = true <-> (0 < dy)%Q)
    /\ (if Qltb 0 dy then
          match find (fun pl => Rect.colliderect (rect p1) pl
                                && (Rect.bottom (rect p) <=? Rect.top pl)) plats with
          | Some pl =>
              Rect.bottom (rect p2) = Rect.top pl
              /\ Rect.x (rect p2) = Rect.x (rect p1)
              /\ Rect.width (rect p2) = Rect.width (rect p1)
              /\ Rect.height (rect p2) = Rect.height (rect p1)
              /\ y_velocity p2 = 0%Q
              /\ is_grounded p2 = true
              /\ jump_count p2 = 0
              /\ jump_power p2 = jump_power p1
              /\ gravity p2 = gravity p1
              /\ max_jumps p2 = max_jumps p1
          | None => p2 = p1
          end
          /\ (forall before pl after,
                 plats = before ++ pl :: after ->
                 (forall q, In q before -> lands_on p1 old_bottom q = false) ->
                 lands_on p1 old_bottom pl = true ->
                 p2 = landing_check dy old_bottom (before ++ [pl]) p1)
        else p2 = p1).
Proof.
  intros dt p plats.
  destruct (integrate dt p) as [[p1 dy] old_bottom] eqn:E.
  assert (Hob : old_bottom = Rect.bottom (rect p)).
  { unfold integrate in E. inversion E. reflexivity. }
  subst old_bottom. clear E. cbv zeta.
  split; [reflexivity |]. split; [apply Qltb_lt |].
  unfold landing_check.
  destruct (Qltb 0 dy); [| reflexivity].
  split.
  - rewrite landing_loop_find.
    change (fun pl : Rect.t =>
              Rect.colliderect (rect p1) pl && (Rect.bottom (rect p) <=? Rect.top pl))
      with (lands_on p1 (Rect.bottom (rect p))).
    destruct (find (lands_on p1 (Rect.bottom (rect p))) plats) as [pl |];
      [| reflexivity].
    cbn. repeat split. unfold Rect.top, Rect.bottom. cbn. lia.
  - intros before pl after -> Hb Hp.
    rewrite !landing_loop_find.
    rewrite (find_app_first _ before after pl Hb Hp).
    rewrite (find_app_first _ before [] pl Hb Hp). reflexivity.
Qed.

(** A player dropping 10 pixels onto the second of three roofs: the first
    is out of reach, the third would do as well but is never looked at. *)
Lemma landing_resolution_witness :
  let p := mkPlayer (Rect.mk 385 340 30 50) JUMP_POWER GRAVITY (10 # 1) false 2
             MAX_JUMPS in
  let r1 := Rect.mk 100 300 PLATFORM_WIDTH PLATFORM_HEIGHT in
  let r2 := Rect.mk 310 395 PLATFORM_WIDTH PLATFORM_HEIGHT in
  let r3 := Rect.mk 310 396 PLATFORM_WIDTH PLATFORM_HEIGHT in
  let '(p1, dy, old_bottom) := integrate (Q_of_Z 16 / Q_of_Z 1000)%Q p in
  lands_on p1 old_bottom r1 = false
  /\ lands_on p1 old_bottom r2 = true
  /\ lands_on p1 old_bottom r3 = true
  /\ landing_check dy old_bottom [r1; r2; r3] p1
     = landing_check dy old_bottom [r1; r2] p1
  /\ Rect.bottom (rect (landing_check dy old_bottom [r1; r2; r3] p1)) = 395.
Proof.
  intros p r1 r2 r3.
  pose proof (landing_resolution (Q_of_Z 16 / Q_of_Z 1000)%Q p [r1; r2; r3]) as H.
  cbv beta iota zeta delta [integrate] in H |- *.
  destruct H as (_ & _ & H).
  change (Qltb 0 _) with true in H. cbv iota in H.
  destruct H as (_ & H).
  split; [reflexivity |]. split; [reflexivity |]. split; [reflexivity |].
  split; [| reflexivity].
  apply (H [r1] r2 [r3]); [reflexivity | | reflexivity].
  intros q [<- | []]. reflexivity.
Defined.

(** ** Coin collection *)

Lemma Rect_eqb_eq (a b : Rect.t) : Rect.eqb a b = true <-> a = b.
Proof.
  unfold Rect.eqb. destruct a, b; cbn.
  rewrite !andb_true_iff, !Z.eqb_eq.
  split.
  - intros [[[-> ->] ->] ->]. reflexivity.
  - intros H. inversion H. auto.
Qed.

(** Removing [c] from a list that has no element equal to [c] before its
    first occurrence takes out that occurrence. *)
Lemma list_remove_skip (kept rest : list Rect.t) (c : Rect.t) :
  (forall a, In a kept -> a <> c) ->
  list_remove c (kept ++ c :: rest) = Some (kept ++ rest).
Proof.
  intros H. induction kept as [| a kept IH]; cbn.
  - destruct (Rect.eqb c c) eqn:E; [reflexivity |].
    assert (Rect.eqb c c = true) by (apply Rect_eqb_eq; reflexivity). congruence.
  - destruct (Rect.eqb a c) eqn:E.
    + apply Rect_eqb_eq in E. exfalso. apply (H a); [left; reflexivity | exact E].
    + rewrite IH; [reflexivity |]. intros b Hb. apply H. right. exact Hb.
Qed.

(** Loop invariant: the live list is the coins already passed over and
    kept, followed by the part of the snapshot still to be visited. *)
Lemma coin_loop_spec (pr : Rect.t) (rest kept : list Rect.t) (sc : Z) :
  (forall a, In a kept -> Rect.colliderect pr a = false) ->
  coin_loop pr rest (kept ++ rest, sc)
  = (kept ++ remaining pr rest, sc + Z.of_nat (length (collected pr rest)), false).
Proof.
  revert kept sc. induction rest as [| c rest IH]; intros kept sc Hk.
  - cbn. rewrite Z.add_0_r. reflexivity.
  - cbn [coin_loop fst snd]. unfold remaining, collected. cbn [filter].
    destruct (Rect.colliderect pr c) eqn:Hc; cbn [negb].
    + rewrite list_remove_skip.
      * rewrite IH by exact Hk. unfold remaining, collected.
        cbn [length]. rewrite Nat2Z.inj_succ. f_equal. f_equal. lia.
      * intros a Ha E. subst a. rewrite (Hk c Ha) in Hc. discriminate.
    + replace (kept ++ c :: rest) with ((kept ++ [c]) ++ rest)
        by (rewrite <- app_assoc; reflexivity).
      rewrite IH.
      * rewrite <- app_assoc. reflexivity.
      * intros a Ha. apply in_app_or in Ha. destruct Ha as [Ha | [<- | []]];
          [apply Hk; exact Ha | exact Hc].
Qed.

Lemma coin_collection_spec (pr : Rect.t) (cs : list Rect.t) (sc : Z) :
  coin_collection pr cs sc
  = (remaining pr cs, sc + Z.of_nat (length (collected pr cs)), false).
Proof.
  unfold coin_collection.
  apply (coin_loop_spec pr cs [] sc). intros a [].
Qed.

Lemma remaining_none_collide (pr : Rect.t) (cs : list Rect.t) :
  collected pr (remaining pr cs) = [].
Proof.
  unfold collected, remaining. induction cs as [| c cs IH]; cbn; [reflexivity |].
  destruct (Rect.colliderect pr c) eqn:E; cbn; [exact IH |].
  rewrite E. exact IH.
Qed.

Lemma remaining_fixpoint (pr : Rect.t) (cs : list Rect.t) :
  remaining pr (remaining pr cs) = remaining pr cs.
Proof.
  unfold remaining. induction cs as [| c cs IH]; cbn; [reflexivity |].
  destruct (Rect.colliderect pr c) eqn:E; cbn; [exact IH |].
  rewrite E. cbn. f_equal. exact IH.
Qed.

Lemma remaining_sublist (pr : Rect.t) (cs : list Rect.t) :
  sublist (remaining pr cs) cs.
Proof.
  unfold remaining. induction cs as [| c cs IH]; cbn; [constructor |].
  destruct (Rect.colliderect pr c); cbn; constructor; exact IH.
Qed.

(** C5. The coin loop of a tick never raises; it leaves exactly the coins
    that do not overlap the player, in their order, and adds to the score
    the number of coins that do.  No coin that was collected is in the list
    afterwards, and running the loop again on the result collects nothing:
    the list and the score stay as they are.  In the tick, the state handed
    on to the obstacle test has no coin left that overlaps the player. *)
Theorem coin_collection_once :
  (forall pr cs sc,
      let '(cs', sc', raised) := coin_collection pr cs sc in
      raised = false
      /\ cs' = filter (fun c => negb (Rect.colliderect pr c)) cs
      /\ sc' = sc + Z.of_nat (length (filter (Rect.colliderect pr) cs))
      /\ sublist cs' cs
      /\ (forall c, In c cs -> Rect.colliderect pr c = true -> ~ In c cs')
      /\ (forall c, In c cs -> Rect.colliderect pr c = false -> In c cs')
      /\ coin_collection pr cs' sc' = (cs', sc', false))
  /\
  (forall dt s,
      let s1 := fst (advance dt s) in
      forall c, In c (coins (world s1)) ->
                Rect.colliderect (rect (player s1)) c = false).
Proof.
  split.
  - intros pr cs sc. rewrite coin_collection_spec.
    split; [reflexivity |]. split; [reflexivity |]. split; [reflexivity |].
    split; [apply remaining_sublist |].
    split; [| split].
    + intros c _ Hc Hin. unfold remaining in Hin.
      apply filter_In in Hin. destruct Hin as [_ Hn]. rewrite Hc in Hn. discriminate.
    + intros c Hin Hc. unfold remaining. apply filter_In. split; [exact Hin |].
      rewrite Hc. reflexivity.
    + rewrite coin_collection_spec, remaining_none_collide, remaining_fixpoint.
      cbn [length Z.of_nat]. rewrite Z.add_0_r. reflexivity.
  - intros dt s s1 c. subst s1. unfold advance.
    destruct (integrate dt (player s)) as [[p1 dy] old_bottom]. cbv zeta.
    rewrite coin_collection_spec. cbn [fst player world coins].
    unfold remaining. intros Hin. apply filter_In in Hin.
    destruct Hin as [_ Hn]. apply negb_true_iff in Hn. exact Hn.
Qed.

(** Two of three coins overlap the player: both go, the score rises by 2. *)
Lemma coin_collection_once_witness :
  let pr := Rect.mk 385 350 30 50 in
  let c1 := Rect.mk 390 360 20 20 in
  let c2 := Rect.mk 500 360 20 20 in
  let c3 := Rect.mk 400 340 20 20 in
  coin_collection pr [c1; c2; c3] 5 = ([c2], 7, false)
  /\ In c1 [c1; c2; c3] /\ Rect.colliderect pr c1 = true /\ ~ In c1 [c2].
Proof.
  intros pr c1 c2 c3.
  split; [reflexivity |]. split; [left; reflexivity |]. split; [reflexivity |].
  pose proof (proj1 coin_collection_once pr [c1; c2; c3] 5) as H.
  change (coin_collection pr [c1; c2; c3] 5) with ([c2], 7, false) in H.
  cbv iota in H.
  apply (proj1 (proj2 (proj2 (proj2 (proj2 H)))) c1);
    [left; reflexivity | reflexivity].
Defined.

(** ** Pruning *)

Lemma prune_sublist (items : list Rect.t) : sublist (prune items) items.
Proof.
  unfold prune. induction items as [| r items IH]; cbn; [constructor |].
  destruct (Rect.right r >? 0); constructor; exact IH.
Qed.

Lemma prune_app (l1 l2 : list Rect.t) : prune (l1 ++ l2) = prune l1 ++ prune l2.
Proof. unfold prune. apply filter_app. Qed.

Lemma prune_In (items : list Rect.t) (r : Rect.t) :
  In r (prune items) <-> In r items /\ 0 < Rect.right r.
Proof.
  unfold prune. rewrite filter_In.
  destruct (Z.gtb_spec (Rect.right r) 0); intuition (try lia; try discriminate).
Qed.

(** C7, as stated, fails at the boundary: an entity whose right edge is
    exactly at 0 has not gone below 0, and is pruned all the same. *)
Lemma prune_right_edge_zero :
  let r := Rect.mk (-150) 370 150 10 in
  Rect.right r = 0 /\ ~ Rect.right r < 0 /\ prune [r] = [].
Proof. vm_compute. repeat split. intros H. discriminate H. Qed.

(** C7, amended. The prune pass keeps an entity exactly when its right
    edge is greater than 0, and so removes it exactly when the right edge is
    at or left of 0; the survivors keep their relative order, and each of the
    three collections is replaced by its pruned self with nothing else
    touched.  A right edge at -1 is pruned, so is a right edge at 0; an
    entity of positive width whose left edge is at 0 is kept. *)
Theorem prune_keeps_positive_right_edge :
  (forall items r, In r (prune items) <-> In r items /\ Rect.right r > 0)
  /\ (forall before r after,
         prune (before ++ r :: after)
         = prune before ++ (if Rect.right r <=? 0 then [] else [r]) ++ prune after)
  /\ (forall items, sublist (prune items) items)
  /\ (forall s,
         let s' := prune_world s in
         platforms (world s') = prune (platforms (world s))
         /\ obstacles (world s') = prune (obstacles (world s))
         /\ coins (world s') = prune (coins (world s))
         /\ rng (world s') = rng (world s)
         /\ set_world (world s) s' = s)
  /\ (forall r, Rect.right r = -1 -> prune [r] = [])
  /\ (forall r, Rect.right r = 0 -> prune [r] = [])
  /\ (forall r, Rect.x r = 0 -> 0 < Rect.width r -> prune [r] = [r]).
Proof.
  split; [| split; [| split; [| split; [| split; [| split]]]]].
  - intros items r. rewrite prune_In.
    split; intros [Hin Hr]; (split; [exact Hin | lia]).
  - intros before r after. rewrite prune_app.
    change (r :: after) with ([r] ++ after). rewrite prune_app.
    f_equal. f_equal. unfold prune. cbn.
    destruct (Z.gtb_spec (Rect.right r) 0), (Z.leb_spec (Rect.right r) 0);
      try reflexivity; lia.
  - apply prune_sublist.
  - intros s. destruct s. cbn. repeat split.
  - intros r H. unfold prune. cbn. rewrite H. reflexivity.
  - intros r H. unfold prune. cbn. rewrite H. reflexivity.
  - intros r Hx Hw. unfold prune, Rect.right. cbn. rewrite Hx.
    destruct (Z.gtb_spec (0 + Rect.width r) 0); [reflexivity | lia].
Qed.

(** One pixel past the edge, exactly at the edge, and just inside. *)
Lemma prune_keeps_positive_right_edge_witness :
  prune [Rect.mk (-151) 370 150 10] = []
  /\ prune [Rect.mk (-150) 370 150 10] = []
  /\ prune [Rect.mk 0 370 150 10] = [Rect.mk 0 370 150 10].
Proof.
  destruct prune_keeps_positive_right_edge as (_ & _ & _ & _ & Hm & Hz & Hk).
  split; [apply Hm; reflexivity |].
  split; [apply Hz; reflexivity |].
  apply Hk; reflexivity.
Defined.

(** ** The tick *)

Lemma spawn_if_needed_frame (s : Game) :
  player (spawn_if_needed s) = player s
  /\ score (spawn_if_needed s) = score s
  /\ game_started (spawn_if_needed s) = game_started s
  /\ running (spawn_if_needed s) = running s.
Proof.
  unfold spawn_if_needed.
  destruct (last_platform_x s <? SCREEN_WIDTH); [| repeat split].
  destruct (spawn_platform (last_platform_y s) (last_platform_x s) (world s))
    as [[lx ly] w]. repeat split.
Qed.

(** The state on which the terminal conditions are tested. *)
Lemma advance_spec (dt : Q) (s : Game) :
  let '(p1, dy, old_bottom) := integrate dt (player s) in
  let p2 := landing_check dy old_bottom (platforms (world s)) p1 in
  let s1 := fst (advance dt s) in
  snd (advance dt s) = false
  /\ player s1 = p2
  /\ game_started s1 = game_started s
  /\ running s1 = running s.
Proof.
  unfold advance.
  destruct (integrate dt (player s)) as [[p1 dy] old_bottom]. cbv zeta.
  rewrite coin_collection_spec. cbn [fst snd player game_started running].
  unfold prune_world. cbn [set_world player game_started running].
  destruct (spawn_if_needed_frame
              (scroll_world (int_of (SCROLL_SPEED * dt * Q_of_Z FPS))
                 (set_player (landing_check dy old_bottom (platforms (world s)) p1) s)))
    as (Hp & _ & Hg & Hr).
  rewrite Hp, Hg, Hr. repeat split.
Qed.

Lemma do_reset_spec (s : Game) :
  exists y w',
    do_reset s = mkGame (reset_player (player s)) w' 985 y 0 false (running s)
    /\ 370 <= y <= 400
    /\ platforms w' = [Rect.mk 325 420 PLATFORM_WIDTH PLATFORM_HEIGHT;
                       Rect.mk 655 y PLATFORM_WIDTH PLATFORM_HEIGHT].
Proof.
  unfold do_reset.
  destruct (reset_game_spec (player s) (world s)) as (y & w' & E & B & P & _).
  rewrite E. exists y, w'. auto.
Qed.

Lemma obstacle_loop_spec (snapshot : list Rect.t) (s : Game) :
  obstacle_loop snapshot s =
  if existsb (Rect.colliderect (rect (player s))) snapshot then do_reset s else s.
Proof.
  induction snapshot as [| o rest IH]; cbn; [reflexivity |].
  destruct (Rect.colliderect (rect (player s)) o); [reflexivity | exact IH].
Qed.

Lemma update_spec (dt : Q) (s : Game) :
  update dt s =
  let s1 := fst (advance dt s) in
  fell_off (if hits_obstacle s1 then do_reset s1 else s1).
Proof.
  unfold update.
  pose proof (advance_spec dt s) as H.
  destruct (integrate dt (player s)) as [[p1 dy] old_bottom].
  destruct H as (Hr & _).
  destruct (advance dt s) as [s1 raised]. cbn [fst snd] in *. subst raised.
  unfold obstacle_collision. rewrite obstacle_loop_spec. reflexivity.
Qed.

Lemma do_reset_fresh (s : Game) : freshly_reset (do_reset s).
Proof.
  destruct (do_reset_spec s) as (y & w' & E & B & P). rewrite E.
  unfold freshly_reset, reset_player, Rect.bottom.
  cbn [player world score game_started last_platform_x last_platform_y
       rect y_velocity jump_count is_grounded Rect.x Rect.y Rect.width Rect.height].
  rewrite initial_platform_y_eq, initial_platform_x_eq.
  split; [reflexivity |]. split; [reflexivity |].
  split; [exists y; auto |].
  split; [reflexivity |].
  split; [lia |].
  repeat split.
Qed.

Lemma fell_off_fresh (s : Game) : freshly_reset s -> freshly_reset (fell_off s).
Proof.
  intros H. unfold fell_off.
  destruct (Rect.top (rect (player s)) >? SCREEN_HEIGHT);
    [apply do_reset_fresh | exact H].
Qed.

(** C2, as stated, fails: the reset that an obstacle hit triggers leaves two
    platforms, not one.  In [crash_state] the player stands on a roof and
    overlaps a crate, before the tick and when the tick tests for it. *)
Lemma obstacle_hit_leaves_two_platforms :
  let dt := (Q_of_Z 16 / Q_of_Z 1000)%Q in
  let s' := frame 16 [] crash_state in
  game_started crash_state = true
  /\ hits_obstacle crash_state = true
  /\ hits_obstacle (fst (advance dt crash_state)) = true
  /\ game_started s' = false
  /\ length (platforms (world s')) = 2%nat
  /\ length (platforms (world s')) <> 1%nat.
Proof. vm_compute. repeat split. discriminate. Qed.

(** C2, amended. If, in a tick of the Playing state, the player overlaps an
    obstacle when the obstacle test runs, the tick ends reset: not started,
    score 0, exactly two platforms (the initial one at (325, 420) and the
    chained one at [x = 655], whose [y] is the frontier [y]), and the player
    standing on the initial platform: bottom edge on its top at 420, centred
    on it, velocity 0, jump count 0, grounded. *)
Theorem obstacle_hit_resets :
  forall ms events s,
    let dt := (Q_of_Z ms / Q_of_Z 1000)%Q in
    let s0 := fold_left handle_event events s in
    game_started s0 = true ->
    hits_obstacle (fst (advance dt s0)) = true ->
    freshly_reset (frame ms events s).
Proof.
  intros ms events s dt s0 Hs Hhit. unfold frame. fold dt. fold s0.
  rewrite Hs, update_spec. cbv zeta. rewrite Hhit.
  apply fell_off_fresh, do_reset_fresh.
Qed.

(** [crash_state] meets both conditions with no events and a 16 ms tick. *)
Lemma obstacle_hit_resets_witness :
  game_started (fold_left handle_event [] crash_state) = true
  /\ hits_obstacle
       (fst (advance (Q_of_Z 16 / Q_of_Z 1000)%Q
               (fold_left handle_event [] crash_state))) = true
  /\ freshly_reset (frame 16 [] crash_state).
Proof.
  split; [reflexivity |]. split; [vm_compute; reflexivity |].
  apply (obstacle_hit_resets 16 [] crash_state); vm_compute; reflexivity.
Defined.

(** ** The jump budget *)

Lemma existsb_find {A : Type} (f : A -> bool) (l : list A) :
  existsb f l = match find f l with Some _ => true | None => false end.
Proof.
  induction l as [| a l IH]; cbn; [reflexivity |].
  destruct (f a); [reflexivity | exact IH].
Qed.

(** The landing check either zeroes the jump count (a platform was found)
    or leaves it; the jump allowance is never touched. *)
Lemma landing_jump_count (dt : Q) (s : Game) :
  let '(p1, dy, old_bottom) := integrate dt (player s) in
  let p2 := landing_check dy old_bottom (platforms (world s)) p1 in
  jump_count p2 = (if landed dt s then 0 else jump_count (player s))
  /\ max_jumps p2 = max_jumps (player s).
Proof.
  unfold landed.
  destruct (integrate dt (player s)) as [[p1 dy] old_bottom] eqn:E.
  assert (Hj : jump_count p1 = jump_count (player s) /\ max_jumps p1 = max_jumps (player s)).
  { unfold integrate in E. inversion E. split; reflexivity. }
  destruct Hj as [Hj Hm]. cbv zeta. unfold landing_check.
  destruct (Qltb 0 dy); cbn [andb]; [| auto].
  rewrite landing_loop_find, existsb_find.
  destruct (find (lands_on p1 old_bottom) (platforms (world s))); cbn; auto.
Qed.

Lemma do_reset_jump (s : Game) :
  jump_count (player (do_reset s)) = 0
  /\ max_jumps (player (do_reset s)) = max_jumps (player s).
Proof.
  destruct (do_reset_spec s) as (y & w' & E & _). rewrite E. split; reflexivity.
Qed.

Lemma update_jump_count (dt : Q) (s : Game) :
  jump_count (player (update dt s))
  = (if resets dt s || landed dt s then 0 else jump_count (player s))
  /\ max_jumps (player (update dt s)) = max_jumps (player s).
Proof.
  rewrite update_spec. unfold resets. cbv zeta.
  pose proof (advance_spec dt s) as HA.
  pose proof (landing_jump_count dt s) as HL.
  destruct (integrate dt (player s)) as [[p1 dy] old_bottom].
  cbv zeta in HA, HL. destruct HA as (_ & HP & _). destruct HL as (HJ & HM).
  set (s1 := fst (advance dt s)) in *.
  rewrite <- HP in HJ, HM.
  unfold fell_off, off_screen.
  destruct (hits_obstacle s1) eqn:Hh; cbn [orb]; cbv iota.
  - destruct (do_reset_jump s1) as (J1 & M1).
    destruct (Rect.top (rect (player (do_reset s1))) >? SCREEN_HEIGHT).
    + destruct (do_reset_jump (do_reset s1)) as (J2 & M2).
      rewrite J2, M2, M1, HM. split; reflexivity.
    + rewrite J1, M1, HM. split; reflexivity.
  - destruct (Rect.top (rect (player s1)) >? SCREEN_HEIGHT); cbn [orb]; cbv iota.
    + destruct (do_reset_jump s1) as (J1 & M1). rewrite J1, M1, HM.
      split; reflexivity.
    + rewrite HJ, HM. split; reflexivity.
Qed.

Lemma handle_event_jump (s : Game) (e : event) :
  jump_inv (player s) ->
  jump_inv (player (handle_event s e))
  /\ max_jumps (player (handle_event s e)) = max_jumps (player s).
Proof.
  unfold jump_inv. intros H. destruct e; cbn; [auto | | auto].
  destruct (game_started s); cbn; [| auto].
  destruct (Z.ltb_spec (jump_count (player s)) (max_jumps (player s))); cbn; [| auto].
  split; [lia | reflexivity].
Qed.

Lemma update_jump_inv (dt : Q) (s : Game) :
  jump_inv (player s) -> jump_inv (player (update dt s)).
Proof.
  unfold jump_inv. intros H.
  destruct (update_jump_count dt s) as (J & M). rewrite J, M.
  destruct (resets dt s || landed dt s); lia.
Qed.

Lemma events_jump_inv (events : list event) (s : Game) :
  jump_inv (player s) -> jump_inv (player (fold_left handle_event events s)).
Proof.
  revert s. induction events as [| e events IH]; intros s H; cbn; [exact H |].
  apply IH. apply handle_event_jump. exact H.
Qed.

Lemma frame_jump_inv (ms : Z) (events : list event) (s : Game) :
  jump_inv (player s) -> jump_inv (player (frame ms events s)).
Proof.
  intros H. unfold frame. cbv zeta.
  pose proof (events_jump_inv events s H) as H1.
  destruct (game_started (fold_left handle_event events s));
    [apply update_jump_inv; exact H1 | exact H1].
Qed.

Lemma initial_game_jump_inv (g : Rng) : jump_inv (player (initial_game g)).
Proof.
  unfold initial_game.
  destruct (reset_game_spec initial_player (mkWorld [] [] [] g)) as (y & w' & E & _).
  rewrite E. unfold jump_inv. cbn. unfold MAX_JUMPS. lia.
Qed.

(** C4, as stated, fails: [reset_game] also sets the jump count to 0.  In
    [fall_state] both jumps are used, no platform is landed on, and the tick
    ends with a jump count of 0 because the player left the screen. *)
Lemma jump_count_zeroed_without_landing :
  let dt := (Q_of_Z 16 / Q_of_Z 1000)%Q in
  jump_count (player fall_state) = 2
  /\ landed dt fall_state = false
  /\ jump_count (player (fst (advance dt fall_state))) = 2
  /\ jump_count (player (frame 16 [] fall_state)) = 0.
Proof. vm_compute. repeat split. Qed.

(** C4, amended. In every state the loop reaches, [0 <= jump_count <=
    max_jumps]; and from any state in that range every event, every tick
    body and every whole frame stays in it.  A space press is turned into a
    jump only when the game is started and [jump_count < max_jumps]; it then
    sets the velocity to the jump impulse, adds exactly 1 to the jump count
    and clears grounded; no other event changes the jump count, and the tick
    body never raises it.  After a tick body the jump count is 0 if the
    landing check found a platform or the tick ended in [reset_game]
    (obstacle hit or fall-off), and is what it was otherwise. *)
Theorem jump_count_budget :
  (forall s, reachable s -> jump_inv (player s))
  /\
  (forall s,
      jump_inv (player s) ->
      (forall e,
          let s' := handle_event s e in
          jump_inv (player s')
          /\ match e with
             | KEYDOWN_SPACE =>
                 if jump_accepted s then
                   jump_count (player s) < max_jumps (player s)
                   /\ jump_count (player s') = jump_count (player s) + 1
                   /\ y_velocity (player s') = jump_power (player s)
                   /\ is_grounded (player s') = false
                 else jump_count (player s') = jump_count (player s)
             | _ => jump_count (player s') = jump_count (player s)
             end)
      /\ (forall dt,
             let s' := update dt s in
             jump_inv (player s')
             /\ jump_count (player s') <= jump_count (player s)
             /\ jump_count (player s')
                = if resets dt s || landed dt s then 0 else jump_count (player s))
      /\ (forall ms events, jump_inv (player (frame ms events s)))).
Proof.
  split.
  - intros s R. induction R as [g | ms events s R IH Hrun].
    + apply initial_game_jump_inv.
    + apply frame_jump_inv. exact IH.
  - intros s H. split; [| split].
    + intros e s'. subst s'. split; [apply handle_event_jump; exact H |].
      destruct e; cbn; [reflexivity | | reflexivity].
      unfold jump_accepted.
      destruct (game_started s); cbn; [| reflexivity].
      destruct (Z.ltb_spec (jump_count (player s)) (max_jumps (player s))) as [L | L];
        cbn; [| reflexivity].
      repeat split. exact L.
    + intros dt s'. subst s'. split; [apply update_jump_inv; exact H |].
      destruct (update_jump_count dt s) as (J & _). rewrite J.
      unfold jump_inv in H.
      split; [destruct (resets dt s || landed dt s); lia | reflexivity].
    + intros ms events. apply frame_jump_inv. exact H.
Qed.

(** The loop reaches the state after one frame with two space presses, so
    the budget holds there; it holds in [crash_state] and so still holds a
    frame later. *)
Lemma jump_count_budget_witness :
  reachable (frame 16 [KEYDOWN_SPACE; KEYDOWN_SPACE] (initial_game (constant_draws 0)))
  /\ jump_inv
       (player (frame 16 [KEYDOWN_SPACE; KEYDOWN_SPACE] (initial_game (constant_draws 0))))
  /\ jump_inv (player crash_state)
  /\ jump_inv (player (frame 16 [KEYDOWN_SPACE; KEYDOWN_SPACE] crash_state)).
Proof.
  assert (R : reachable
                (frame 16 [KEYDOWN_SPACE; KEYDOWN_SPACE] (initial_game (constant_draws 0)))).
  { apply reach_frame; [apply reach_initial | reflexivity]. }
  assert (C : jump_inv (player crash_state)).
  { unfold jump_inv. vm_compute. split; discriminate. }
  split; [exact R |].
  split; [exact (proj1 jump_count_budget _ R) |].
  split; [exact C |].
  exact (proj2 (proj2 (proj2 jump_count_budget crash_state C)) 16
           [KEYDOWN_SPACE; KEYDOWN_SPACE]).
Defined.

(** ** The space key *)

(** C10. A space press before the game has started sets the started flag
    and nothing else: player (position, velocity, jump count, grounded),
    score, frontier coordinates, the three lists and the running flag stay
    as they are.  A space press in a started game whose jump count has
    reached [max_jumps] leaves the whole state as it is. *)
Theorem space_press_frame_effect :
  forall s,
    let s' := handle_event s KEYDOWN_SPACE in
    (game_started s = false ->
       game_started s' = true
       /\ player s' = player s
       /\ platforms (world s') = platforms (world s)
       /\ obstacles (world s') = obstacles (world s)
       /\ coins (world s') = coins (world s)
       /\ world s' = world s
       /\ score s' = score s
       /\ last_platform_x s' = last_platform_x s
       /\ last_platform_y s' = last_platform_y s
       /\ running s' = running s)
    /\ (game_started s = true ->
        max_jumps (player s) <= jump_count (player s) ->
        s' = s).
Proof.
  intros s s'. subst s'. cbn. split.
  - intros ->. cbn. repeat split.
  - intros -> H. cbn.
    destruct (Z.ltb_spec (jump_count (player s)) (max_jumps (player s)));
      [lia | reflexivity].
Qed.

(** Both cases occur: [crash_state] with the started flag cleared is a state
    waiting for its first space press, and in [fall_state] both jumps are
    used. *)
Lemma space_press_frame_effect_witness :
  (game_started (set_game_started false crash_state) = false
   /\ player (handle_event (set_game_started false crash_state) KEYDOWN_SPACE)
      = player crash_state)
  /\ (game_started fall_state = true
      /\ max_jumps (player fall_state) <= jump_count (player fall_state)
      /\ handle_event fall_state KEYDOWN_SPACE = fall_state).
Proof.
  split.
  - split; [reflexivity |].
    apply (proj1 (space_press_frame_effect (set_game_started false crash_state))).
    reflexivity.
  - split; [reflexivity |]. split; [vm_compute; discriminate |].
    apply (proj2 (space_press_frame_effect fall_state)).
    + reflexivity.
    + vm_compute. discriminate.
Defined.

(** * Further properties *)

(** ** Rectangles *)

(** For rectangles of positive size, [colliderect] is the overlap of the
    half-open extents on both axes. *)
Lemma colliderect_positive (a b : Rect.t) :
  0 < Rect.width a -> 0 < Rect.height a -> 0 < Rect.width b -> 0 < Rect.height b ->
  (Rect.colliderect a b = true <->
   Rect.x a < Rect.x b + Rect.width b /\ Rect.x b < Rect.x a + Rect.width a
   /\ Rect.y a < Rect.y b + Rect.height b /\ Rect.y b < Rect.y a + Rect.height a).
Proof.
  intros Hwa Hha Hwb Hhb. unfold Rect.colliderect.
  destruct (Z.eqb_spec (Rect.width a) 0); [lia |].
  destruct (Z.eqb_spec (Rect.height a) 0); [lia |].
  destruct (Z.eqb_spec (Rect.width b) 0); [lia |].
  destruct (Z.eqb_spec (Rect.height b) 0); [lia |].
  cbn [orb]. rewrite !andb_true_iff, !Z.ltb_lt, !Z.gtb_lt. lia.
Qed.

Lemma colliderect_false_positive (a b : Rect.t) :
  0 < Rect.width a -> 0 < Rect.height a -> 0 < Rect.width b -> 0 < Rect.height b ->
  (Rect.x b + Rect.width b <= Rect.x a \/ Rect.x a + Rect.width a <= Rect.x b
   \/ Rect.y b + Rect.height b <= Rect.y a \/ Rect.y a + Rect.height a <= Rect.y b) ->
  Rect.colliderect a b = false.
Proof.
  intros Hwa Hha Hwb Hhb H.
  destruct (Rect.colliderect a b) eqn:E; [| reflexivity].
  apply colliderect_positive in E; try assumption. lia.
Qed.

(** ** Level generator: what is placed, and where *)

Lemma m_random_spec (w : World) :
  exists q, m_random w = (inl q, set_rng (snd (draw (rng w))) w).
Proof. unfold m_random, random, draw. eexists. reflexivity. Qed.

Lemma extras_detail (x y : Z) (w : World) :
  exists w' os cs,
    extras x y w = (inl tt, w')
    /\ platforms w' = platforms w
    /\ obstacles w' = obstacles w ++ os
    /\ coins w' = coins w ++ cs
    /\ tape (rng w') = tape (rng w)
    /\ cursor (rng w')
       = (cursor (rng w)
          + (if (SCREEN_WIDTH / 4 <? x)%Z then 2 + length os + length cs else 0))%nat
    /\ (length os <= 1)%nat /\ Forall (obstacle_on x y) os
    /\ (length cs <= 1)%nat /\ Forall (coin_over x y) cs
    /\ (x <= SCREEN_WIDTH / 4 -> os = [] /\ cs = []).
Proof.
  unfold extras, when.
  destruct (Z.ltb_spec (SCREEN_WIDTH / 4) x) as [Hx | Hx].
  2:{ exists w, [], []. rewrite !app_nil_r.
      do 10 (split; [first [reflexivity | simpl; lia | constructor] |]).
      intros _. split; reflexivity. }
  unfold bind at 1.
  destruct (m_random_spec w) as (p & Ep). rewrite Ep.
  set (w0 := set_rng (snd (draw (rng w))) w).
  unfold bind at 1.
  assert (HO : exists w1 os, (if Qltb p OBSTACLE_CHANCE
                 then dx <- m_randint EDGE_PADDING
                              (PLATFORM_WIDTH - fst OBSTACLE_SIZE - EDGE_PADDING) ;;
                      append_obstacle
                        (Rect.mk (x + dx) (y - snd OBSTACLE_SIZE)
                           (fst OBSTACLE_SIZE) (snd OBSTACLE_SIZE))
                 else ret tt) w0 = (inl tt, w1)
              /\ platforms w1 = platforms w /\ coins w1 = coins w
              /\ obstacles w1 = obstacles w ++ os
              /\ tape (rng w1) = tape (rng w)
              /\ cursor (rng w1) = (cursor (rng w) + 1 + length os)%nat
              /\ (length os <= 1)%nat
              /\ Forall (obstacle_on x y) os).
  { destruct (Qltb p OBSTACLE_CHANCE).
    - destruct (m_randint_padding (PLATFORM_WIDTH - fst OBSTACLE_SIZE - EDGE_PADDING) w0)
        as (dx & E & B); [vm_compute; discriminate |].
      unfold bind. rewrite E. eexists. eexists.
      split; [reflexivity |]. cbn.
      split; [reflexivity |]. split; [reflexivity |]. split; [reflexivity |].
      split; [reflexivity |]. split; [cbn [length]; lia |]. split; [cbn [length]; lia |].
      constructor; [| constructor].
      unfold obstacle_on, Rect.bottom, Rect.right. cbn.
      unfold EDGE_PADDING, PLATFORM_WIDTH in *. cbn in B. lia.
    - exists w0, []. split; [reflexivity |]. cbn. rewrite app_nil_r.
      split; [reflexivity |]. split; [reflexivity |]. split; [reflexivity |].
      split; [reflexivity |]. split; [cbn [length]; lia |]. split; [cbn [length]; lia |]. constructor. }
  destruct HO as (w1 & os & E1 & P1 & C1 & O1 & T1 & K1 & L1 & F1).
  rewrite E1.
  unfold bind at 1.
  destruct (m_random_spec w1) as (q & Eq). rewrite Eq.
  set (w2 := set_rng (snd (draw (rng w1))) w1).
  destruct (Qltb q COIN_CHANCE).
  - destruct (m_randint_padding (PLATFORM_WIDTH - fst COIN_SIZE - EDGE_PADDING) w2)
      as (dx & E & B); [vm_compute; discriminate |].
    unfold bind. rewrite E. eexists. exists os. eexists.
    split; [reflexivity |]. cbn. rewrite P1, C1, O1, T1, K1.
    split; [reflexivity |]. split; [reflexivity |]. split; [reflexivity |].
    split; [reflexivity |]. split; [cbn [length]; lia |]. split; [exact L1 |].
    split; [exact F1 |]. split; [cbn [length]; lia |].
    split; [| intros H; change (SCREEN_WIDTH / 4) with 200 in *; lia].
    constructor; [| constructor].
    unfold coin_over, Rect.bottom, Rect.right. cbn.
    unfold EDGE_PADDING, PLATFORM_WIDTH, COIN_OFFSET_ABOVE_ROOF in *. cbn in B. lia.
  - exists w2, os, []. split; [reflexivity |]. cbn. rewrite P1, C1, O1, T1, K1, app_nil_r.
    split; [reflexivity |]. split; [reflexivity |]. split; [reflexivity |].
    split; [reflexivity |]. split; [cbn [length]; lia |]. split; [exact L1 |].
    split; [exact F1 |]. split; [cbn [length]; lia |].
    split; [constructor | intros H; change (SCREEN_WIDTH / 4) with 200 in *; lia].
Qed.

(** [spawn_platform] in full: either the range for [y] is empty and the call
    only advances the frontier, or it appends one platform at a [y] of the
    range, at most one obstacle on it and at most one coin over it. *)
Lemma spawn_platform_detail (last_platform_y x : Z) (w : World) :
  let lo := Z.max PLATFORM_MIN_Y (last_platform_y - PLATFORM_Y_DELTA) in
  let hi := Z.min PLATFORM_MAX_Y (last_platform_y + PLATFORM_Y_DELTA) in
  (hi < lo
   /\ spawn_platform last_platform_y x w
      = ((x + PLATFORM_WIDTH + HORIZONTAL_GAP, last_platform_y), w))
  \/
  (lo <= hi /\ exists y w' os cs,
      spawn_platform last_platform_y x w
        = ((x + PLATFORM_WIDTH + HORIZONTAL_GAP, y), w')
      /\ lo <= y <= hi
      /\ platforms w' = platforms w ++ [Rect.mk x y PLATFORM_WIDTH PLATFORM_HEIGHT]
      /\ obstacles w' = obstacles w ++ os
      /\ coins w' = coins w ++ cs
      /\ tape (rng w') = tape (rng w)
      /\ cursor (rng w')
         = (cursor (rng w) + 1
            + (if (SCREEN_WIDTH / 4 <? x)%Z then 2 + length os + length cs else 0))%nat
      /\ (length os <= 1)%nat /\ Forall (obstacle_on x y) os
      /\ (length cs <= 1)%nat /\ Forall (coin_over x y) cs
      /\ (x <= SCREEN_WIDTH / 4 -> os = [] /\ cs = [])).
Proof.
  intros lo hi. unfold spawn_platform. rewrite spawn_platform_try_unfold. fold lo hi.
  destruct (Z.lt_ge_cases hi lo) as [Hlt | Hge].
  - left. split; [exact Hlt |].
    unfold bind at 1. unfold m_randint.
    rewrite (randint_empty lo hi (rng w) Hlt).
    destruct w; reflexivity.
  - right. split; [exact Hge |].
    destruct (randint_range lo hi (rng w) Hge) as (y & E & B).
    unfold bind at 1. unfold m_randint. rewrite E.
    unfold bind at 1. unfold append_platform at 1.
    set (w0 := mkWorld _ _ _ _).
    destruct (extras_detail x y w0)
      as (w' & os & cs & E' & P & O & C & T & K & LO & FO & LC & FC & N).
    exists y, w', os, cs. unfold bind. rewrite E'. unfold ret.
    split; [reflexivity |]. split; [exact B |].
    subst w0. cbn in P, O, C, T, K.
    split; [exact P |]. split; [exact O |]. split; [exact C |]. split; [exact T |].
    split; [rewrite K; change (SCREEN_WIDTH / 4) with 200;
            destruct (200 <? x); lia |].
    repeat (split; [assumption |]). exact N.
Qed.

Lemma Forall_at {A : Type} (P : A -> Prop) (l : list A) (a : A) :
  Forall P l -> In a l -> P a.
Proof. intros H Hin. rewrite Forall_forall in H. apply H. exact Hin. Qed.

(** X1. The obstacle of a [spawn_platform] call.  The call adds at most one
    obstacle and none when [x] is within the first quarter of the screen
    width.  An added obstacle is 30 x 30, stands on the roof of the platform
    the same call appended (its bottom is the returned [y]) and keeps
    [EDGE_PADDING] from both ends of the platform. *)
Theorem spawn_platform_obstacle_on_new_roof :
  forall last_platform_y x w,
    let '((_, y), w') := spawn_platform last_platform_y x w in
    exists os,
      obstacles w' = obstacles w ++ os
      /\ (length os <= 1)%nat
      /\ (x <= SCREEN_WIDTH / 4 -> os = [])
      /\ (forall o, In o os ->
            In (Rect.mk x y PLATFORM_WIDTH PLATFORM_HEIGHT) (platforms w')
            /\ Rect.width o = 30 /\ Rect.height o = 30
            /\ Rect.bottom o = y
            /\ x + 20 <= Rect.x o
            /\ Rect.right o <= x + PLATFORM_WIDTH - 20).
Proof.
  intros last x w.
  destruct (spawn_platform_detail last x w)
    as [(_ & E) | (_ & y & w' & os & cs & E & _ & P & O & C & _ & _ & L & F & _ & _ & N)];
    rewrite E.
  - exists []. rewrite app_nil_r.
    split; [reflexivity |]. split; [simpl; lia |]. split; [reflexivity |].
    intros o [].
  - exists os. split; [exact O |]. split; [exact L |].
    split; [intros H; apply N; exact H |].
    intros o Hin. split; [rewrite P; apply in_or_app; right; left; reflexivity |].
    exact (Forall_at _ _ _ F Hin).
Qed.

(** X2. The coin of a [spawn_platform] call.  The call adds at most one
    coin and none when [x] is within the first quarter of the screen width.
    An added coin is 20 x 20, floats with its bottom 30 above the roof of
    the platform the same call appended and keeps [EDGE_PADDING] from both
    ends of the platform. *)
Theorem spawn_platform_coin_over_new_roof :
  forall last_platform_y x w,
    let '((_, y), w') := spawn_platform last_platform_y x w in
    exists cs,
      coins w' = coins w ++ cs
      /\ (length cs <= 1)%nat
      /\ (x <= SCREEN_WIDTH / 4 -> cs = [])
      /\ (forall c, In c cs ->
            In (Rect.mk x y PLATFORM_WIDTH PLATFORM_HEIGHT) (platforms w')
            /\ Rect.width c = 20 /\ Rect.height c = 20
            /\ Rect.bottom c = y - 30
            /\ x + 20 <= Rect.x c
            /\ Rect.right c <= x + PLATFORM_WIDTH - 20).
Proof.
  intros last x w.
  destruct (spawn_platform_detail last x w)
    as [(_ & E) | (_ & y & w' & os & cs & E & _ & P & O & C & _ & _ & _ & _ & L & F & N)];
    rewrite E.
  - exists []. rewrite app_nil_r.
    split; [reflexivity |]. split; [simpl; lia |]. split; [reflexivity |].
    intros c [].
  - exists cs. split; [exact C |]. split; [exact L |].
    split; [intros H; apply N; exact H |].
    intros c Hin. split; [rewrite P; apply in_or_app; right; left; reflexivity |].
    exact (Forall_at _ _ _ F Hin).
Qed.

Lemma obstacle_coin_disjoint (x y : Z) (o c : Rect.t) :
  obstacle_on x y o -> coin_over x y c ->
  Rect.colliderect o c = false /\ Rect.colliderect c o = false.
Proof.
  unfold obstacle_on, coin_over, Rect.bottom, Rect.right.
  unfold OBSTACLE_SIZE, COIN_SIZE, COIN_OFFSET_ABOVE_ROOF. cbn [fst snd].
  intros (Wo & Ho & Bo & _) (Wc & Hc & Bc & _).
  split; apply colliderect_false_positive; lia.
Qed.

Lemma obstacle_above_roof (x y : Z) (o : Rect.t) :
  obstacle_on x y o ->
  Rect.colliderect o (Rect.mk x y PLATFORM_WIDTH PLATFORM_HEIGHT) = false.
Proof.
  unfold obstacle_on, Rect.bottom, OBSTACLE_SIZE. cbn [fst snd].
  intros (Wo & Ho & Bo & _).
  apply colliderect_false_positive; cbn; unfold PLATFORM_WIDTH, PLATFORM_HEIGHT; lia.
Qed.

Lemma coin_above_roof (x y : Z) (c : Rect.t) :
  coin_over x y c ->
  Rect.colliderect c (Rect.mk x y PLATFORM_WIDTH PLATFORM_HEIGHT) = false.
Proof.
  unfold coin_over, Rect.bottom, COIN_SIZE, COIN_OFFSET_ABOVE_ROOF. cbn [fst snd].
  intros (Wc & Hc & Bc & _).
  apply colliderect_false_positive; cbn; unfold PLATFORM_WIDTH, PLATFORM_HEIGHT; lia.
Qed.

(** X3. What one [spawn_platform] call generates never overlaps: the new
    obstacle and the new coin do not collide with each other (the coin's
    bottom is the obstacle's top), and neither collides with the platform
    they were spawned on. *)
Theorem spawn_platform_generates_disjoint :
  forall last_platform_y x w,
    let '((_, y), w') := spawn_platform last_platform_y x w in
    exists os cs,
      obstacles w' = obstacles w ++ os
      /\ coins w' = coins w ++ cs
      /\ (forall o c, In o os -> In c cs ->
            Rect.colliderect o c = false /\ Rect.colliderect c o = false)
      /\ (forall o, In o os ->
            Rect.colliderect o (Rect.mk x y PLATFORM_WIDTH PLATFORM_HEIGHT) = false)
      /\ (forall c, In c cs ->
            Rect.colliderect c (Rect.mk x y PLATFORM_WIDTH PLATFORM_HEIGHT) = false).
Proof.
  intros last x w.
  destruct (spawn_platform_detail last x w)
    as [(_ & E) | (_ & y & w' & os & cs & E & _ & P & O & C & _ & _ & _ & FO & _ & FC & _)];
    rewrite E.
  - exists [], []. rewrite !app_nil_r.
    split; [reflexivity |]. split; [reflexivity |].
    split; [intros o c [] | split; intros r []].
  - exists os, cs. split; [exact O |]. split; [exact C |].
    split; [| split].
    + intros o c Ho Hc.
      exact (obstacle_coin_disjoint x y o c (Forall_at _ _ _ FO Ho) (Forall_at _ _ _ FC Hc)).
    + intros o Ho. exact (obstacle_above_roof x y o (Forall_at _ _ _ FO Ho)).
    + intros c Hc. exact (coin_above_roof x y c (Forall_at _ _ _ FC Hc)).
Qed.

(** X4. The random draws of a [spawn_platform] call.  The call never
    rewrites the stream, only moves the cursor: by nothing when the range
    for [y] is empty, and otherwise by one draw for [y] plus, beyond the
    startup buffer, one draw for each of the two chance tests and one for
    each obstacle or coin it then places; never more than five. *)
Theorem spawn_platform_draws :
  forall last_platform_y x w,
    let w' := snd (spawn_platform last_platform_y x w) in
    let range_empty :=
      Z.min PLATFORM_MAX_Y (last_platform_y + PLATFORM_Y_DELTA)
      <? Z.max PLATFORM_MIN_Y (last_platform_y - PLATFORM_Y_DELTA) in
    let past_buffer := SCREEN_WIDTH / 4 <? x in
    let new_obstacles := (length (obstacles w') - length (obstacles w))%nat in
    let new_coins := (length (coins w') - length (coins w))%nat in
    tape (rng w') = tape (rng w)
    /\ (cursor (rng w) <= cursor (rng w') <= cursor (rng w) + 5)%nat
    /\ cursor (rng w')
       = (cursor (rng w)
          + (if range_empty then 0
             else 1 + (if past_buffer then 2 + new_obstacles + new_coins else 0)))%nat.
Proof.
  intros last x w w' range_empty past_buffer new_obstacles new_coins.
  subst w' range_empty past_buffer new_obstacles new_coins.
  destruct (spawn_platform_detail last x w)
    as [(Hlt & E) | (Hle & y & w' & os & cs & E & _ & P & O & C & T & K & LO & _ & LC & _)];
    rewrite E; cbn [snd].
  - split; [reflexivity |]. split; [lia |].
    destruct (Z.ltb_spec (Z.min PLATFORM_MAX_Y (last + PLATFORM_Y_DELTA))
                (Z.max PLATFORM_MIN_Y (last - PLATFORM_Y_DELTA))); lia.
  - split; [exact T |].
    rewrite O, C, !length_app, K.
    replace (length (obstacles w) + length os - length (obstacles w))%nat
      with (length os) by lia.
    replace (length (coins w) + length cs - length (coins w))%nat
      with (length cs) by lia.
    destruct (Z.ltb_spec (Z.min PLATFORM_MAX_Y (last + PLATFORM_Y_DELTA))
                (Z.max PLATFORM_MIN_Y (last - PLATFORM_Y_DELTA))); [lia |].
    destruct (SCREEN_WIDTH / 4 <? x); lia.
Qed.

(** X5. Chained generation.  Once the previous roof is in the band
    [PLATFORM_MIN_Y..PLATFORM_MAX_Y], a [spawn_platform] call cannot fail,
    and neither can the call chained on what it returns: both append their
    platform, the second one exactly [PLATFORM_WIDTH + HORIZONTAL_GAP] to the
    right of the first (so they do not overlap), in the band again and
    within [PLATFORM_Y_DELTA] of the first. *)
Theorem spawn_platform_chain :
  forall last_platform_y x w,
    PLATFORM_MIN_Y <= last_platform_y <= PLATFORM_MAX_Y ->
    let '((x1, y1), w1) := spawn_platform last_platform_y x w in
    let '((x2, y2), w2) := spawn_platform y1 x1 w1 in
    platforms w2
      = platforms w ++ [Rect.mk x y1 PLATFORM_WIDTH PLATFORM_HEIGHT;
                        Rect.mk x1 y2 PLATFORM_WIDTH PLATFORM_HEIGHT]
    /\ x1 = x + PLATFORM_WIDTH + HORIZONTAL_GAP
    /\ x2 = x1 + PLATFORM_WIDTH + HORIZONTAL_GAP
    /\ PLATFORM_MIN_Y <= y1 <= PLATFORM_MAX_Y
    /\ PLATFORM_MIN_Y <= y2 <= PLATFORM_MAX_Y
    /\ Z.abs (y1 - last_platform_y) <= PLATFORM_Y_DELTA
    /\ Z.abs (y2 - y1) <= PLATFORM_Y_DELTA
    /\ Rect.colliderect (Rect.mk x y1 PLATFORM_WIDTH PLATFORM_HEIGHT)
         (Rect.mk x1 y2 PLATFORM_WIDTH PLATFORM_HEIGHT) = false.
Proof.
  intros last x w Hb.
  unfold PLATFORM_MIN_Y, PLATFORM_MAX_Y, PLATFORM_Y_DELTA in *.
  destruct (spawn_platform_detail last x w)
    as [(Hlt & _) | (_ & y1 & w1 & os & cs & E & B & P & _)];
    unfold PLATFORM_MIN_Y, PLATFORM_MAX_Y, PLATFORM_Y_DELTA in *; [lia |].
  rewrite E.
  destruct (spawn_platform_detail y1 (x + PLATFORM_WIDTH + HORIZONTAL_GAP) w1)
    as [(Hlt & _) | (_ & y2 & w2 & os2 & cs2 & E2 & B2 & P2 & _)];
    unfold PLATFORM_MIN_Y, PLATFORM_MAX_Y, PLATFORM_Y_DELTA in *; [lia |].
  rewrite E2, P2, P, <- app_assoc.
  split; [reflexivity |]. split; [reflexivity |]. split; [reflexivity |].
  split; [lia |]. split; [lia |]. split; [lia |]. split; [lia |].
  apply colliderect_false_positive; cbn;
    unfold PLATFORM_WIDTH, PLATFORM_HEIGHT, HORIZONTAL_GAP; lia.
Qed.

(** A roof at 300, a spawn at 985, and the one chained on it. *)
Lemma spawn_platform_chain_witness :
  PLATFORM_MIN_Y <= 300 <= PLATFORM_MAX_Y
  /\ (let '((x1, y1), w1) := spawn_platform 300 985 (mkWorld [] [] [] counting_draws) in
      let '((x2, y2), w2) := spawn_platform y1 x1 w1 in
      x2 = x1 + PLATFORM_WIDTH + HORIZONTAL_GAP /\ Z.abs (y2 - y1) <= PLATFORM_Y_DELTA).
Proof.
  assert (H : PLATFORM_MIN_Y <= 300 <= PLATFORM_MAX_Y) by (vm_compute; split; discriminate).
  split; [exact H |].
  pose proof (spawn_platform_chain 300 985 (mkWorld [] [] [] counting_draws) H) as T.
  destruct (spawn_platform 300 985 (mkWorld [] [] [] counting_draws)) as [[x1 y1] w1].
  destruct (spawn_platform y1 x1 w1) as [[x2 y2] w2].
  destruct T as (_ & _ & T2 & _ & _ & _ & T6 & _). split; assumption.
Defined.

(** ** The platform chain *)

Lemma chain_to_roofs (fx fy : Z) (l : list Rect.t) :
  chain_to fx fy l -> Forall roof l.
Proof.
  induction l as [| p rest IH]; intros H; constructor.
  - exact (proj1 H).
  - apply IH. exact (proj2 (proj2 H)).
Qed.

Lemma chain_to_append (fx fy : Z) (l : list Rect.t) (y : Z) :
  chain_to fx fy l ->
  PLATFORM_MIN_Y <= y <= initial_platform_y ->
  (l <> [] -> Z.abs (y - fy) <= PLATFORM_Y_DELTA) ->
  chain_to (fx + PLATFORM_WIDTH + HORIZONTAL_GAP) y
    (l ++ [Rect.mk fx y PLATFORM_WIDTH PLATFORM_HEIGHT]).
Proof.
  intros H By Hd. induction l as [| p rest IH].
  - cbn. repeat split; try reflexivity; apply By.
  - destruct H as (Rp & Hn & Hr). cbn [app chain_to].
    split; [exact Rp |].
    destruct rest as [| q rest'].
    + cbn [app]. destruct Hn as (Hx & Hy).
      split; [split; [cbn; lia | cbn; rewrite Hy; apply Hd; discriminate] |].
      apply IH; [exact Hr | intros C; contradiction C; reflexivity].
    + split; [exact Hn |].
      apply IH; [exact Hr | intros _; apply Hd; discriminate].
Qed.

Lemma chain_to_shift (fx fy d : Z) (l : list Rect.t) :
  chain_to fx fy l -> chain_to (fx - d) fy (shift d l).
Proof.
  induction l as [| p rest IH]; intros H; [exact I |].
  destruct H as (Rp & Hn & Hr). cbn [shift map chain_to].
  split; [exact Rp |].
  split; [| apply IH; exact Hr].
  destruct rest as [| q rest']; cbn [map]; cbn; lia.
Qed.

(** In a chain every platform lies to the right of the ones before it, so
    once one survives the prune pass all the later ones do. *)
Lemma chain_to_prune_kept (fx fy : Z) (p : Rect.t) (rest : list Rect.t) :
  chain_to fx fy (p :: rest) -> 0 < Rect.right p -> prune rest = rest.
Proof.
  revert p. induction rest as [| q rest IH]; intros p H Hp; [reflexivity |].
  destruct H as (Rp & (Hx & _) & Hr).
  assert (Rq : roof q) by exact (proj1 Hr).
  assert (Hq : 0 < Rect.right q).
  { unfold Rect.right in *. destruct Rp as (Wp & _). destruct Rq as (Wq & _).
    unfold PLATFORM_WIDTH, HORIZONTAL_GAP in *. lia. }
  unfold prune. cbn [filter]. fold (prune rest).
  destruct (Z.gtb_spec (Rect.right q) 0); [| lia].
  f_equal. exact (IH q Hr Hq).
Qed.

Lemma chain_to_prune (fx fy : Z) (l : list Rect.t) :
  chain_to fx fy l -> chain_to fx fy (prune l).
Proof.
  induction l as [| p rest IH]; intros H; [exact I |].
  unfold prune. cbn [filter]. fold (prune rest).
  destruct (Z.gtb_spec (Rect.right p) 0) as [Hp | Hp].
  - rewrite (chain_to_prune_kept fx fy p rest H); [exact H | lia].
  - apply IH. exact (proj2 (proj2 H)).
Qed.

(** A chain read by position: neighbours in the list are neighbours in the
    world. *)
Lemma chain_to_neighbours (fx fy : Z) (l : list Rect.t) (i : nat) (p q : Rect.t) :
  chain_to fx fy l ->
  nth_error l i = Some p -> nth_error l (S i) = Some q ->
  Rect.x q = Rect.x p + PLATFORM_WIDTH + HORIZONTAL_GAP
  /\ Z.abs (Rect.y q - Rect.y p) <= PLATFORM_Y_DELTA.
Proof.
  revert i. induction l as [| a rest IH]; intros i H Hp Hq.
  - destruct i; discriminate.
  - destruct i as [| i].
    + cbn in Hp, Hq. inversion Hp; subst a.
      destruct rest as [| b rest']; [discriminate |].
      cbn in Hq. inversion Hq; subst b. exact (proj1 (proj2 H)).
    + cbn in Hp. change (nth_error rest (S i) = Some q) in Hq.
      exact (IH i (proj2 (proj2 H)) Hp Hq).
Qed.

Lemma chain_to_last (fx fy : Z) (l : list Rect.t) (p : Rect.t) :
  chain_to fx fy (l ++ [p]) ->
  Rect.x p + PLATFORM_WIDTH + HORIZONTAL_GAP = fx /\ Rect.y p = fy.
Proof.
  induction l as [| a rest IH]; intros H.
  - exact (proj1 (proj2 H)).
  - apply IH. exact (proj2 (proj2 H)).
Qed.

(** ** Obstacles and coins stay on their roofs *)

Lemma on_a_roof_incl (l1 l2 : list Rect.t) (o : Rect.t) :
  incl l1 l2 -> on_a_roof l1 o -> on_a_roof l2 o.
Proof. intros Hi (p & Hp & Ho). exists p. split; [apply Hi; exact Hp | exact Ho]. Qed.

Lemma over_a_roof_incl (l1 l2 : list Rect.t) (c : Rect.t) :
  incl l1 l2 -> over_a_roof l1 c -> over_a_roof l2 c.
Proof. intros Hi (p & Hp & Hc). exists p. split; [apply Hi; exact Hp | exact Hc]. Qed.

Lemma on_a_roof_shift (d : Z) (plats : list Rect.t) (o : Rect.t) :
  on_a_roof plats o -> on_a_roof (shift d plats) (Rect.set_x (Rect.x o - d) o).
Proof.
  intros (p & Hp & Ho). exists (Rect.set_x (Rect.x p - d) p).
  split; [unfold shift; apply in_map_iff; exists p; split; [reflexivity | exact Hp] |].
  unfold obstacle_on, Rect.bottom, Rect.right in *. cbn in *. lia.
Qed.

Lemma over_a_roof_shift (d : Z) (plats : list Rect.t) (c : Rect.t) :
  over_a_roof plats c -> over_a_roof (shift d plats) (Rect.set_x (Rect.x c - d) c).
Proof.
  intros (p & Hp & Hc). exists (Rect.set_x (Rect.x p - d) p).
  split; [unfold shift; apply in_map_iff; exists p; split; [reflexivity | exact Hp] |].
  unfold coin_over, Rect.bottom, Rect.right in *. cbn in *. lia.
Qed.

Lemma on_a_roof_prune (plats : list Rect.t) (o : Rect.t) :
  Forall roof plats -> on_a_roof plats o -> 0 < Rect.right o ->
  on_a_roof (prune plats) o.
Proof.
  intros HR (p & Hp & Ho) Hr. exists p. split; [| exact Ho].
  apply prune_In. split; [exact Hp |].
  destruct (Forall_at _ _ _ HR Hp) as (Wp & _).
  unfold obstacle_on, Rect.right in *. unfold PLATFORM_WIDTH, EDGE_PADDING in *. lia.
Qed.

Lemma over_a_roof_prune (plats : list Rect.t) (c : Rect.t) :
  Forall roof plats -> over_a_roof plats c -> 0 < Rect.right c ->
  over_a_roof (prune plats) c.
Proof.
  intros HR (p & Hp & Hc) Hr. exists p. split; [| exact Hc].
  apply prune_In. split; [exact Hp |].
  destruct (Forall_at _ _ _ HR Hp) as (Wp & _).
  unfold coin_over, Rect.right in *. unfold PLATFORM_WIDTH, EDGE_PADDING in *. lia.
Qed.

(** ** The phases of a tick keep the world well formed *)

Lemma Forall_shift (P Q : Rect.t -> Prop) (d : Z) (l : list Rect.t) :
  (forall r, P r -> Q (Rect.set_x (Rect.x r - d) r)) ->
  Forall P l -> Forall Q (shift d l).
Proof.
  intros H F. unfold shift. induction F; cbn; constructor; auto.
Qed.

Lemma Forall_prune (P Q : Rect.t -> Prop) (l : list Rect.t) :
  (forall r, P r -> 0 < Rect.right r -> Q r) ->
  Forall P l -> Forall Q (prune l).
Proof.
  intros H F. apply Forall_forall. intros r Hr.
  apply prune_In in Hr. destruct Hr as (Hin & Hpos).
  apply H; [exact (Forall_at _ _ _ F Hin) | exact Hpos].
Qed.

Lemma scroll_world_ok (d : Z) (s : Game) : world_ok s -> world_ok (scroll_world d s).
Proof.
  intros (Hc & Hy & Ho & Hk). unfold world_ok, scroll_world.
  cbn [world platforms obstacles coins last_platform_x last_platform_y].
  split; [apply chain_to_shift; exact Hc |]. split; [exact Hy |].
  split.
  - apply (Forall_shift (on_a_roof (platforms (world s)))); [| exact Ho].
    intros r. apply on_a_roof_shift.
  - apply (Forall_shift (over_a_roof (platforms (world s)))); [| exact Hk].
    intros r. apply over_a_roof_shift.
Qed.

Lemma spawn_if_needed_ok (s : Game) : world_ok s -> world_ok (spawn_if_needed s).
Proof.
  intros (Hc & Hy & Ho & Hk). unfold spawn_if_needed.
  destruct (last_platform_x s <? SCREEN_WIDTH);
    [| exact (conj Hc (conj Hy (conj Ho Hk)))].
  destruct (spawn_platform_detail (last_platform_y s) (last_platform_x s) (world s))
    as [(Hlt & _) | (_ & y & w' & os & cs & E & B & P & O & C & _ & _ & _ & FO & _ & FC & _)];
    unfold PLATFORM_MIN_Y, PLATFORM_MAX_Y, PLATFORM_Y_DELTA in *; [lia |].
  rewrite E. unfold world_ok.
  cbn [world platforms obstacles coins last_platform_x last_platform_y].
  rewrite P, O, C.
  split; [| split; [unfold PLATFORM_MIN_Y, PLATFORM_MAX_Y; lia | split]].
  - apply (chain_to_append _ (last_platform_y s)); [exact Hc | |].
    + rewrite initial_platform_y_eq. unfold PLATFORM_MIN_Y. lia.
    + intros _. unfold PLATFORM_Y_DELTA. lia.
  - apply Forall_app. split.
    + eapply Forall_impl; [| exact Ho]. intros o.
      apply on_a_roof_incl. apply incl_appl, incl_refl.
    + eapply Forall_impl; [| exact FO]. intros o H.
      exists (Rect.mk (last_platform_x s) y PLATFORM_WIDTH PLATFORM_HEIGHT).
      split; [apply in_or_app; right; left; reflexivity | exact H].
  - apply Forall_app. split.
    + eapply Forall_impl; [| exact Hk]. intros c.
      apply over_a_roof_incl. apply incl_appl, incl_refl.
    + eapply Forall_impl; [| exact FC]. intros c H.
      exists (Rect.mk (last_platform_x s) y PLATFORM_WIDTH PLATFORM_HEIGHT).
      split; [apply in_or_app; right; left; reflexivity | exact H].
Qed.

Lemma prune_world_ok (s : Game) : world_ok s -> world_ok (prune_world s).
Proof.
  intros (Hc & Hy & Ho & Hk). unfold world_ok, prune_world.
  cbn [set_world world platforms obstacles coins last_platform_x last_platform_y].
  pose proof (chain_to_roofs _ _ _ Hc) as HR.
  split; [apply chain_to_prune; exact Hc |]. split; [exact Hy |].
  split.
  - apply (Forall_prune (on_a_roof (platforms (world s)))); [| exact Ho].
    intros r. apply on_a_roof_prune. exact HR.
  - apply (Forall_prune (over_a_roof (platforms (world s)))); [| exact Hk].
    intros r. apply over_a_roof_prune. exact HR.
Qed.

Lemma Forall_remaining (P : Rect.t -> Prop) (pr : Rect.t) (l : list Rect.t) :
  Forall P l -> Forall P (remaining pr l).
Proof.
  intros F. apply Forall_forall. intros r Hr. unfold remaining in Hr.
  apply filter_In in Hr. exact (Forall_at _ _ _ F (proj1 Hr)).
Qed.

(** [advance] with its lets resolved. *)
Lemma advance_unfold (dt : Q) (s : Game) :
  advance dt s =
  (let '(p1, dy, old_bottom) := integrate dt (player s) in
   let p2 := landing_check dy old_bottom (platforms (world s)) p1 in
   let s2 := prune_world
               (spawn_if_needed
                  (scroll_world (int_of (SCROLL_SPEED * dt * Q_of_Z FPS)%Q)
                     (set_player p2 s))) in
   (mkGame (player s2)
      (mkWorld (platforms (world s2)) (obstacles (world s2))
         (remaining (rect (player s2)) (coins (world s2))) (rng (world s2)))
      (last_platform_x s2) (last_platform_y s2)
      (score s2 + Z.of_nat (length (collected (rect (player s2)) (coins (world s2)))))
      (game_started s2) (running s2),
    false)).
Proof.
  unfold advance.
  destruct (integrate dt (player s)) as [[p1 dy] old_bottom]. cbv zeta.
  rewrite coin_collection_spec. reflexivity.
Qed.

Lemma advance_world_ok (dt : Q) (s : Game) :
  world_ok s -> world_ok (fst (advance dt s)).
Proof.
  intros H. rewrite advance_unfold.
  destruct (integrate dt (player s)) as [[p1 dy] old_bottom]. cbv zeta. cbn [fst].
  set (s2 := prune_world _).
  assert (H2 : world_ok s2).
  { subst s2. apply prune_world_ok, spawn_if_needed_ok, scroll_world_ok. exact H. }
  destruct H2 as (Hc & Hy & Ho & Hk). unfold world_ok.
  cbn [world platforms obstacles coins last_platform_x last_platform_y].
  repeat (split; [assumption |]). apply Forall_remaining. exact Hk.
Qed.

Lemma advance_score (dt : Q) (s : Game) :
  score s <= score (fst (advance dt s)).
Proof.
  rewrite advance_unfold.
  destruct (integrate dt (player s)) as [[p1 dy] old_bottom]. cbv zeta. cbn [fst score].
  unfold prune_world. cbn [set_world score].
  destruct (spawn_if_needed_frame
              (scroll_world (int_of (SCROLL_SPEED * dt * Q_of_Z FPS))
                 (set_player (landing_check dy old_bottom (platforms (world s)) p1) s)))
    as (_ & Hs & _).
  rewrite Hs. cbn [scroll_world score set_player]. lia.
Qed.

Lemma advance_clear_of_coins (dt : Q) (s : Game) :
  clear_of (rect (player (fst (advance dt s)))) (coins (world (fst (advance dt s)))).
Proof.
  rewrite advance_unfold.
  destruct (integrate dt (player s)) as [[p1 dy] old_bottom]. cbv zeta.
  cbn [fst player world coins]. intros r Hr. unfold remaining in Hr.
  apply filter_In in Hr. apply negb_true_iff. exact (proj2 Hr).
Qed.

(** ** The loop invariant *)

Lemma reset_game_detail (p : Player) (w : World) :
  exists y w',
    reset_game p w = ((985, y, 0, false), reset_player p, w')
    /\ 370 <= y <= 400
    /\ platforms w' = [Rect.mk 325 420 PLATFORM_WIDTH PLATFORM_HEIGHT;
                       Rect.mk 655 y PLATFORM_WIDTH PLATFORM_HEIGHT]
    /\ Forall (obstacle_on 655 y) (obstacles w')
    /\ Forall (coin_over 655 y) (coins w').
Proof.
  rewrite reset_game_unfold. unfold spawn_platform.
  destruct (spawn_platform_detail 420 655
              (mkWorld [Rect.mk 325 420 PLATFORM_WIDTH PLATFORM_HEIGHT] [] [] (rng w)))
    as [(Hlt & _) | (_ & y & w1 & os & cs & E & B & P & O & C & _ & _ & _ & FO & _ & FC & _)].
  - exfalso. revert Hlt. vm_compute. discriminate.
  - unfold spawn_platform in E. rewrite E. exists y, w1. split; [reflexivity |].
    split; [unfold PLATFORM_MIN_Y, PLATFORM_MAX_Y, PLATFORM_Y_DELTA in B; lia |].
    split; [exact P |].
    cbn in O, C. rewrite O, C. split; assumption.
Qed.

Lemma standard_player_kind (p : Player) : standard_player p -> player_kind p.
Proof. intros (_ & H). exact H. Qed.

Lemma do_reset_inv (s : Game) : player_kind (player s) -> game_inv (do_reset s).
Proof.
  intros (Hw & Hh & Hj & Hg & Hm).
  pose proof (do_reset_fresh s) as HF.
  unfold do_reset in *.
  destruct (reset_game_detail (player s) (world s)) as (y & w' & E & B & P & FO & FC).
  rewrite E in *. unfold game_inv, world_ok, standard_player, reset_player.
  cbn [player world rect last_platform_x last_platform_y score game_started
       Rect.x Rect.y Rect.width Rect.height jump_power gravity max_jumps
       is_grounded y_velocity jump_count].
  rewrite Hw, Hh, P, initial_platform_x_eq, initial_platform_y_eq.
  split; [repeat split; assumption |].
  split.
  { split.
    - unfold chain_to, roof.
      cbn [Rect.x Rect.y Rect.width Rect.height].
      rewrite initial_platform_y_eq.
      unfold PLATFORM_MIN_Y, PLATFORM_WIDTH, HORIZONTAL_GAP, PLATFORM_Y_DELTA.
      repeat split; lia.
    - split; [unfold PLATFORM_MIN_Y, PLATFORM_MAX_Y; lia |].
      split.
      + eapply Forall_impl; [| exact FO]. intros o H.
        exists (Rect.mk 655 y PLATFORM_WIDTH PLATFORM_HEIGHT).
        split; [right; left; reflexivity | exact H].
      + eapply Forall_impl; [| exact FC]. intros c H.
        exists (Rect.mk 655 y PLATFORM_WIDTH PLATFORM_HEIGHT).
        split; [right; left; reflexivity | exact H]. }
  split.
  { intros o Ho. pose proof (Forall_at _ _ _ FO Ho) as (Wo & Ho' & _ & Xo & _).
    unfold OBSTACLE_SIZE, EDGE_PADDING in *. cbn [fst snd] in *.
    apply colliderect_false_positive; cbn; lia. }
  split.
  { intros c Hc. pose proof (Forall_at _ _ _ FC Hc) as (Wc & Hc' & _ & Xc & _).
    unfold COIN_SIZE, EDGE_PADDING in *. cbn [fst snd] in *.
    apply colliderect_false_positive; cbn; lia. }
  split; [unfold Rect.top, SCREEN_HEIGHT; cbn; lia |].
  split; [intros _; split; reflexivity |].
  split; [lia |].
  intros _. unfold reset_player in HF.
  rewrite Hw, Hh, initial_platform_x_eq, initial_platform_y_eq in HF. exact HF.
Qed.

Lemma integrate_landing_player (dt : Q) (plats : list Rect.t) (p : Player) :
  standard_player p ->
  let '(p1, dy, old_bottom) := integrate dt p in
  let p2 := landing_check dy old_bottom plats p1 in
  standard_player p2
  /\ (is_grounded p2 = true -> y_velocity p2 = 0%Q /\ jump_count p2 = 0).
Proof.
  intros H. unfold integrate. cbv zeta.
  set (p1 := set_is_grounded false _).
  assert (H1 : standard_player p1) by exact H.
  assert (G1 : is_grounded p1 = false) by reflexivity.
  clearbody p1. unfold landing_check.
  destruct (Qltb 0 _); [| split; [exact H1 | rewrite G1; discriminate]].
  rewrite landing_loop_find.
  destruct (find _ plats) as [pl |]; [| split; [exact H1 | rewrite G1; discriminate]].
  split; [exact H1 | intros _; split; reflexivity].
Qed.

Lemma advance_player (dt : Q) (s : Game) :
  standard_player (player s) ->
  let s1 := fst (advance dt s) in
  standard_player (player s1)
  /\ (is_grounded (player s1) = true ->
      y_velocity (player s1) = 0%Q /\ jump_count (player s1) = 0).
Proof.
  intros H.
  pose proof (advance_spec dt s) as HA.
  pose proof (integrate_landing_player dt (platforms (world s)) (player s) H) as HP.
  destruct (integrate dt (player s)) as [[p1 dy] old_bottom].
  cbv zeta in *. destruct HA as (_ & E & _). rewrite E. exact HP.
Qed.

Lemma update_inv (dt : Q) (s : Game) :
  game_inv s -> game_started s = true -> game_inv (update dt s).
Proof.
  intros (HP & HW & _ & _ & _ & _ & Hsc & _) Hs.
  rewrite update_spec. cbv zeta.
  set (s1 := fst (advance dt s)).
  destruct (advance_player dt s HP) as (HP1 & HG1). fold s1 in HP1, HG1.
  assert (HW1 : world_ok s1) by (apply advance_world_ok; exact HW).
  assert (HS1 : game_started s1 = true).
  { pose proof (advance_spec dt s) as HA.
    destruct (integrate dt (player s)) as [[p1 dy] old_bottom].
    cbv zeta in HA. destruct HA as (_ & _ & E & _). fold s1 in E. congruence. }
  destruct (hits_obstacle s1) eqn:Hh.
  - pose proof (do_reset_inv s1 (standard_player_kind _ HP1)) as HI.
    unfold fell_off.
    destruct (Rect.top (rect (player (do_reset s1))) >? SCREEN_HEIGHT); [| exact HI].
    apply do_reset_inv. apply standard_player_kind. exact (proj1 HI).
  - unfold fell_off.
    destruct (Z.gtb_spec (Rect.top (rect (player s1))) SCREEN_HEIGHT) as [Ht | Ht].
    + apply do_reset_inv, standard_player_kind. exact HP1.
    + split; [exact HP1 |]. split; [exact HW1 |].
      split.
      { intros o Ho. unfold hits_obstacle in Hh.
        destruct (Rect.colliderect (rect (player s1)) o) eqn:E; [| reflexivity].
        assert (existsb (Rect.colliderect (rect (player s1))) (obstacles (world s1)) = true)
          by (apply existsb_exists; exists o; split; assumption).
        congruence. }
      split; [apply advance_clear_of_coins |].
      split; [exact Ht |]. split; [exact HG1 |].
      split; [| rewrite HS1; discriminate].
      pose proof (advance_score dt s) as Hadv. fold s1 in Hadv. lia.
Qed.

Lemma handle_event_inv (s : Game) (e : event) :
  game_inv s -> game_inv (handle_event s e).
Proof.
  intros (HP & HW & HO & HC & HT & HG & HS & HF).
  destruct e; cbn [handle_event].
  - exact (conj HP (conj HW (conj HO (conj HC (conj HT (conj HG (conj HS HF))))))).
  - destruct (game_started s) eqn:Hs; cbn [negb].
    + destruct (jump_count (player s) <? max_jumps (player s)).
      * split; [exact HP |]. split; [exact HW |]. split; [exact HO |].
        split; [exact HC |]. split; [exact HT |].
        split; [cbn; discriminate |]. split; [exact HS |].
        cbn. rewrite Hs. discriminate.
      * rewrite <- Hs in HF.
        exact (conj HP (conj HW (conj HO (conj HC (conj HT (conj HG (conj HS HF))))))).
    + split; [exact HP |]. split; [exact HW |]. split; [exact HO |].
      split; [exact HC |]. split; [exact HT |]. split; [exact HG |].
      split; [exact HS |]. cbn. discriminate.
  - exact (conj HP (conj HW (conj HO (conj HC (conj HT (conj HG (conj HS HF))))))).
Qed.

Lemma events_inv (events : list event) (s : Game) :
  game_inv s -> game_inv (fold_left handle_event events s).
Proof.
  revert s. induction events as [| e events IH]; intros s H; cbn; [exact H |].
  apply IH, handle_event_inv. exact H.
Qed.

Lemma frame_inv (ms : Z) (events : list event) (s : Game) :
  game_inv s -> game_inv (frame ms events s).
Proof.
  intros H. unfold frame. cbv zeta.
  pose proof (events_inv events s H) as H1.
  destruct (game_started (fold_left handle_event events s)) eqn:Hs;
    [apply update_inv; assumption | exact H1].
Qed.

Lemma initial_game_inv (g : Rng) : game_inv (initial_game g).
Proof.
  change (initial_game g)
    with (do_reset (mkGame initial_player (mkWorld [] [] [] g) 0 0 0 false true)).
  apply do_reset_inv. repeat split.
Qed.

Lemma reachable_inv (s : Game) : reachable s -> game_inv s.
Proof.
  intros R. induction R as [g | ms events s R IH Hrun].
  - apply initial_game_inv.
  - apply frame_inv. exact IH.
Qed.

(** ** What holds in every state the loop reaches *)

(** X6. [reset_game] forgets the run it ends: its result depends only on
    the player's size and physics constants and on the random source, not on
    what the three lists held nor on where the player was, how fast it moved,
    whether it was grounded or how many jumps it had used. *)
Theorem reset_game_forgets :
  forall p w p' w',
    Rect.width (rect p) = Rect.width (rect p') ->
    Rect.height (rect p) = Rect.height (rect p') ->
    jump_power p = jump_power p' ->
    gravity p = gravity p' ->
    max_jumps p = max_jumps p' ->
    rng w = rng w' ->
    reset_game p w = reset_game p' w'.
Proof.
  intros p w p' w' Hw Hh Hj Hg Hm Hr.
  rewrite !reset_game_unfold. unfold reset_player.
  rewrite Hw, Hh, Hj, Hg, Hm, Hr. reflexivity.
Qed.

(** The crashed and the falling sample state reset to the same state. *)
Lemma reset_game_forgets_witness :
  reset_game (player crash_state) (world crash_state)
  = reset_game (player fall_state) (world fall_state).
Proof.
  apply (reset_game_forgets (player crash_state) (world crash_state)
           (player fall_state) (world fall_state)); reflexivity.
Defined.

(** X7. The platforms of every reachable state form a chain.  Each is
    150 x 10 with its roof between 250 and 420; a platform and the next one
    in the list are exactly [PLATFORM_WIDTH + HORIZONTAL_GAP] apart, differ
    by at most [PLATFORM_Y_DELTA] in height and do not overlap; and the last
    platform of the list is the one the frontier was computed from. *)
Theorem reachable_platform_chain :
  forall s,
    reachable s ->
    (forall p, In p (platforms (world s)) ->
       Rect.width p = PLATFORM_WIDTH /\ Rect.height p = PLATFORM_HEIGHT
       /\ PLATFORM_MIN_Y <= Rect.y p <= 420)
    /\ (forall i p q,
          nth_error (platforms (world s)) i = Some p ->
          nth_error (platforms (world s)) (S i) = Some q ->
          Rect.x q = Rect.x p + PLATFORM_WIDTH + HORIZONTAL_GAP
          /\ Z.abs (Rect.y q - Rect.y p) <= PLATFORM_Y_DELTA
          /\ Rect.colliderect p q = false)
    /\ (forall l p,
          platforms (world s) = l ++ [p] ->
          last_platform_x s = Rect.x p + PLATFORM_WIDTH + HORIZONTAL_GAP
          /\ last_platform_y s = Rect.y p).
Proof.
  intros s R. destruct (reachable_inv s R) as (_ & (Hc & _) & _).
  pose proof (chain_to_roofs _ _ _ Hc) as HR.
  split; [| split].
  - intros p Hp. destruct (Forall_at _ _ _ HR Hp) as (Hw & Hh & Hy).
    rewrite initial_platform_y_eq in Hy. auto.
  - intros i p q Hp Hq.
    destruct (chain_to_neighbours _ _ _ i p q Hc Hp Hq) as (Hx & Hy).
    split; [exact Hx |]. split; [exact Hy |].
    destruct (Forall_at _ _ _ HR (nth_error_In _ _ Hp)) as (Wp & Hp' & _).
    destruct (Forall_at _ _ _ HR (nth_error_In _ _ Hq)) as (Wq & Hq' & _).
    apply colliderect_false_positive;
      unfold PLATFORM_WIDTH, PLATFORM_HEIGHT, HORIZONTAL_GAP in *; lia.
  - intros l p E. rewrite E in Hc.
    destruct (chain_to_last _ _ l p Hc) as (Hx & Hy). split; congruence.
Qed.

(** X8. In a reachable state the generator cannot fail: the frontier [y] is
    within [PLATFORM_MIN_Y..PLATFORM_MAX_Y], so the range [spawn_platform]
    draws from is never empty and its [except] branch is never taken,
    whatever [x] and lists it is called with. *)
Theorem reachable_spawn_never_fails :
  forall s,
    reachable s ->
    PLATFORM_MIN_Y <= last_platform_y s <= PLATFORM_MAX_Y
    /\ (forall x w, exists r w',
           spawn_platform_try (last_platform_y s) x w = (inl r, w')).
Proof.
  intros s R. destruct (reachable_inv s R) as (_ & (_ & Hy & _) & _).
  split; [exact Hy |]. intros x w.
  destruct (spawn_platform_try_spec (last_platform_y s) x w)
    as [(Hlt & _) | (_ & y & w' & E & _)];
    unfold PLATFORM_MIN_Y, PLATFORM_MAX_Y, PLATFORM_Y_DELTA in *; [lia |].
  eexists. exists w'. exact E.
Qed.

(** X9. In every reachable state each obstacle stands on a platform that is
    still in the platform list (bottom on its roof, at least 20 from either
    end), and each coin floats 30 above such a platform: the prune pass
    never removes a platform from under an obstacle or coin it keeps. *)
Theorem reachable_entities_on_roofs :
  forall s,
    reachable s ->
    (forall o, In o (obstacles (world s)) ->
       exists p, In p (platforms (world s))
                 /\ Rect.width o = 30 /\ Rect.height o = 30
                 /\ Rect.bottom o = Rect.top p
                 /\ Rect.x p + 20 <= Rect.x o
                 /\ Rect.right o <= Rect.right p - 20)
    /\ (forall c, In c (coins (world s)) ->
          exists p, In p (platforms (world s))
                    /\ Rect.width c = 20 /\ Rect.height c = 20
                    /\ Rect.bottom c = Rect.top p - 30
                    /\ Rect.x p + 20 <= Rect.x c
                    /\ Rect.right c <= Rect.right p - 20).
Proof.
  intros s R. destruct (reachable_inv s R) as (_ & (Hc & _ & Ho & Hk) & _).
  pose proof (chain_to_roofs _ _ _ Hc) as HR.
  split.
  - intros o Hin. destruct (Forall_at _ _ _ Ho Hin) as (p & Hp & H).
    destruct (Forall_at _ _ _ HR Hp) as (Wp & _).
    exists p. split; [exact Hp |].
    unfold obstacle_on in H. unfold Rect.top, Rect.right in *. rewrite Wp.
    exact H.
  - intros c Hin. destruct (Forall_at _ _ _ Hk Hin) as (p & Hp & H).
    destruct (Forall_at _ _ _ HR Hp) as (Wp & _).
    exists p. split; [exact Hp |].
    unfold coin_over in H. unfold Rect.top, Rect.right in *. rewrite Wp.
    exact H.
Qed.

(** X10. At the top of every iteration the run is not in a terminal
    condition: the player overlaps no obstacle and no coin of the lists, and
    its top edge is not below the bottom of the screen. *)
Theorem reachable_nothing_pending :
  forall s,
    reachable s ->
    (forall o, In o (obstacles (world s)) ->
       Rect.colliderect (rect (player s)) o = false)
    /\ (forall c, In c (coins (world s)) ->
          Rect.colliderect (rect (player s)) c = false)
    /\ Rect.top (rect (player s)) <= SCREEN_HEIGHT.
Proof.
  intros s R. destruct (reachable_inv s R) as (_ & _ & HO & HC & HT & _).
  split; [exact HO |]. split; [exact HC | exact HT].
Qed.

(** X11. In every reachable state a grounded player is at rest with all
    its jumps available: [is_grounded] implies velocity 0 and jump count 0. *)
Theorem reachable_grounded_at_rest :
  forall s,
    reachable s ->
    is_grounded (player s) = true ->
    y_velocity (player s) = 0%Q /\ jump_count (player s) = 0.
Proof.
  intros s R. destruct (reachable_inv s R) as (_ & _ & _ & _ & _ & HG & _).
  exact HG.
Qed.

(** X12. The player never moves sideways and never changes shape: in every
    reachable state its rectangle has [x = 385] and is 30 x 50, and its
    jump impulse, gravity and jump allowance are the configured constants. *)
Theorem reachable_player_column :
  forall s,
    reachable s ->
    Rect.x (rect (player s)) = 385
    /\ Rect.width (rect (player s)) = 30
    /\ Rect.height (rect (player s)) = 50
    /\ jump_power (player s) = JUMP_POWER
    /\ gravity (player s) = GRAVITY
    /\ max_jumps (player s) = MAX_JUMPS.
Proof.
  intros s R. destruct (reachable_inv s R) as (HP & _). exact HP.
Qed.

(** The state one frame after the start press is reachable. *)
Lemma reachable_after_start :
  reachable (frame 16 [KEYDOWN_SPACE] (initial_game (constant_draws 0))).
Proof. apply reach_frame; [apply reach_initial | reflexivity]. Defined.

Lemma reachable_platform_chain_witness :
  let s := frame 16 [KEYDOWN_SPACE] (initial_game (constant_draws 0)) in
  reachable s
  /\ forall p, In p (platforms (world s)) ->
       Rect.width p = PLATFORM_WIDTH /\ Rect.height p = PLATFORM_HEIGHT
       /\ PLATFORM_MIN_Y <= Rect.y p <= 420.
Proof.
  split; [exact reachable_after_start |].
  exact (proj1 (reachable_platform_chain _ reachable_after_start)).
Defined.

Lemma reachable_spawn_never_fails_witness :
  let s := frame 16 [KEYDOWN_SPACE] (initial_game (constant_draws 0)) in
  reachable s /\ PLATFORM_MIN_Y <= last_platform_y s <= PLATFORM_MAX_Y.
Proof.
  split; [exact reachable_after_start |].
  exact (proj1 (reachable_spawn_never_fails _ reachable_after_start)).
Defined.

Lemma reachable_entities_on_roofs_witness :
  let s := frame 16 [KEYDOWN_SPACE] (initial_game (constant_draws 0)) in
  reachable s
  /\ obstacles (world s) <> []
  /\ forall o, In o (obstacles (world s)) ->
       exists p, In p (platforms (world s))
                 /\ Rect.width o = 30 /\ Rect.height o = 30
                 /\ Rect.bottom o = Rect.top p
                 /\ Rect.x p + 20 <= Rect.x o
                 /\ Rect.right o <= Rect.right p - 20.
Proof.
  split; [exact reachable_after_start |].
  split; [vm_compute; discriminate |].
  exact (proj1 (reachable_entities_on_roofs _ reachable_after_start)).
Defined.

Lemma reachable_nothing_pending_witness :
  let s := frame 16 [KEYDOWN_SPACE] (initial_game (constant_draws 0)) in
  reachable s /\ Rect.top (rect (player s)) <= SCREEN_HEIGHT.
Proof.
  split; [exact reachable_after_start |].
  exact (proj2 (proj2 (reachable_nothing_pending _ reachable_after_start))).
Defined.

Lemma reachable_grounded_at_rest_witness :
  let s := initial_game (constant_draws 0) in
  reachable s /\ is_grounded (player s) = true
  /\ y_velocity (player s) = 0%Q /\ jump_count (player s) = 0.
Proof.
  split; [apply reach_initial |]. split; [reflexivity |].
  apply (reachable_grounded_at_rest _ (reach_initial (constant_draws 0))).
  reflexivity.
Defined.

Lemma reachable_player_column_witness :
  let s := frame 16 [KEYDOWN_SPACE] (initial_game (constant_draws 0)) in
  reachable s /\ Rect.x (rect (player s)) = 385.
Proof.
  split; [exact reachable_after_start |].
  exact (proj1 (reachable_player_column _ reachable_after_start)).
Defined.

(** ** Waiting for the start press *)

Lemma set_running_same (s : Game) : set_running (running s) s = s.
Proof. destruct s; reflexivity. Qed.

Lemma events_without_space (events : list event) (s : Game) :
  game_started s = false ->
  existsb is_space events = false ->
  fold_left handle_event events s
  = set_running (running s && negb (existsb is_quit events)) s.
Proof.
  revert s. induction events as [| e events IH]; intros s Hs He.
  - cbn. rewrite andb_true_r. symmetry. apply set_running_same.
  - cbn [existsb] in He. apply orb_false_iff in He. destruct He as (He1 & He2).
    destruct e; cbn [is_space] in He1; [| discriminate |].
    + cbn [fold_left handle_event existsb is_quit orb negb].
      rewrite (IH (set_running false s) Hs He2). cbn. rewrite andb_false_r.
      reflexivity.
    + cbn [fold_left handle_event existsb is_quit orb].
      exact (IH s Hs He2).
Qed.

Lemma do_reset_set_running (b : bool) (s : Game) :
  do_reset (set_running b s) = set_running b (do_reset s).
Proof.
  unfold do_reset. cbn [set_running player world running].
  destruct (reset_game (player s) (world s)) as [[[[[lx ly] sc] st] p] w].
  reflexivity.
Qed.

Lemma handle_event_from_reset (s : Game) (e : event) :
  from_reset s -> from_reset (handle_event s e).
Proof.
  unfold from_reset. intros H. destruct e; cbn [handle_event].
  - intros Hs. destruct (H Hs) as (s0 & K & E).
    exists (set_running false s0). split; [exact K |].
    rewrite do_reset_set_running, <- E. reflexivity.
  - destruct (game_started s) eqn:Hs; cbn [negb].
    + destruct (jump_count (player s) <? max_jumps (player s)).
      * cbn. rewrite Hs. discriminate.
      * rewrite Hs. discriminate.
    + cbn. discriminate.
  - exact H.
Qed.

Lemma events_from_reset (events : list event) (s : Game) :
  from_reset s -> from_reset (fold_left handle_event events s).
Proof.
  revert s. induction events as [| e events IH]; intros s H; cbn; [exact H |].
  apply IH, handle_event_from_reset. exact H.
Qed.

Lemma do_reset_kind (s : Game) :
  player_kind (player s) -> player_kind (player (do_reset s)).
Proof.
  intros K. destruct (do_reset_spec s) as (y & w' & E & _). rewrite E. exact K.
Qed.

Lemma update_from_reset (dt : Q) (s : Game) :
  standard_player (player s) -> game_started s = true -> from_reset (update dt s).
Proof.
  intros HP Hs. unfold from_reset. rewrite update_spec. cbv zeta.
  set (s1 := fst (advance dt s)).
  destruct (advance_player dt s HP) as (HP1 & _). fold s1 in HP1.
  pose proof (standard_player_kind _ HP1) as K1.
  assert (HS1 : game_started s1 = true).
  { pose proof (advance_spec dt s) as HA.
    destruct (integrate dt (player s)) as [[p1 dy] old_bottom].
    cbv zeta in HA. destruct HA as (_ & _ & E & _). fold s1 in E. congruence. }
  unfold fell_off.
  destruct (hits_obstacle s1).
  - destruct (Rect.top (rect (player (do_reset s1))) >? SCREEN_HEIGHT); intros _.
    + exists (do_reset s1). split; [apply do_reset_kind; exact K1 | reflexivity].
    + exists s1. split; [exact K1 | reflexivity].
  - destruct (Rect.top (rect (player s1)) >? SCREEN_HEIGHT); intros Hn.
    + exists s1. split; [exact K1 | reflexivity].
    + congruence.
Qed.

Lemma reachable_from_reset (s : Game) : reachable s -> from_reset s.
Proof.
  intros R. induction R as [g | ms events s R IH Hrun].
  - intros _.
    exists (mkGame initial_player (mkWorld [] [] [] g) 0 0 0 false true).
    split; [repeat split | reflexivity].
  - unfold frame. cbv zeta.
    pose proof (events_from_reset events s IH) as H0.
    pose proof (events_inv events s (reachable_inv s R)) as HI.
    destruct (game_started (fold_left handle_event events s)) eqn:Hs; [| exact H0].
    apply update_from_reset; [exact (proj1 HI) | exact Hs].
Qed.

(** [do_reset] of a state whose player has the size and constants of the
    player of [main], field by field. *)
Lemma do_reset_full (s0 : Game) :
  player_kind (player s0) ->
  player (do_reset s0)
  = mkPlayer (Rect.mk 385 370 30 50) JUMP_POWER GRAVITY 0%Q true 0 MAX_JUMPS
  /\ score (do_reset s0) = 0
  /\ last_platform_x (do_reset s0) = 985
  /\ exists y,
       370 <= y <= 400
       /\ last_platform_y (do_reset s0) = y
       /\ platforms (world (do_reset s0))
          = [Rect.mk 325 420 PLATFORM_WIDTH PLATFORM_HEIGHT;
             Rect.mk 655 y PLATFORM_WIDTH PLATFORM_HEIGHT]
       /\ (length (obstacles (world (do_reset s0))) <= 1)%nat
       /\ Forall (obstacle_on 655 y) (obstacles (world (do_reset s0)))
       /\ (length (coins (world (do_reset s0))) <= 1)%nat
       /\ Forall (coin_over 655 y) (coins (world (do_reset s0))).
Proof.
  intros (Hw & Hh & Hj & Hg & Hm). unfold do_reset.
  destruct (reset_game_detail (player s0) (world s0)) as (y & w' & E & B & P & FO & FC).
  destruct (reset_game_spec (player s0) (world s0)) as (y2 & w2 & E2 & _ & _ & LO & LC).
  rewrite E in E2. inversion E2; subst y2 w2. rewrite E.
  cbn [player world score last_platform_x last_platform_y].
  split; [unfold reset_player; rewrite Hw, Hh, Hj, Hg, Hm; reflexivity |].
  split; [reflexivity |]. split; [reflexivity |].
  exists y. auto 10.
Qed.

(** X13. While the game waits for the start press nothing moves.  A
    reachable state that is not started is a state [reset_game] has just
    produced, in every field: the player is the 30 x 50 rectangle at
    (385, 370), grounded, at rest, with no jump used; the score is 0; the
    platforms are the initial one and the chained one at [x = 655], whose
    [y] in [370..400] is the frontier [y], and the frontier [x] is 985;
    there is at most one obstacle and at most one coin, both on the chained
    platform.  And a frame without a space press, in any state that is not
    started, changes nothing but the running flag, which a quit event
    clears, whatever the frame time. *)
Theorem not_started_is_frozen :
  (forall s,
      reachable s -> game_started s = false ->
      (exists s0, s = do_reset s0)
      /\ player s
         = mkPlayer (Rect.mk 385 370 30 50) JUMP_POWER GRAVITY 0%Q true 0 MAX_JUMPS
      /\ score s = 0
      /\ last_platform_x s = 985
      /\ exists y,
           370 <= y <= 400
           /\ last_platform_y s = y
           /\ platforms (world s)
              = [Rect.mk 325 420 PLATFORM_WIDTH PLATFORM_HEIGHT;
                 Rect.mk 655 y PLATFORM_WIDTH PLATFORM_HEIGHT]
           /\ (length (obstacles (world s)) <= 1)%nat
           /\ Forall (obstacle_on 655 y) (obstacles (world s))
           /\ (length (coins (world s)) <= 1)%nat
           /\ Forall (coin_over 655 y) (coins (world s)))
  /\ (forall ms events s,
         game_started s = false ->
         existsb is_space events = false ->
         frame ms events s
         = set_running (running s && negb (existsb is_quit events)) s).
Proof.
  split.
  - intros s R Hs. destruct (reachable_from_reset s R Hs) as (s0 & K & E).
    split; [exists s0; exact E |].
    rewrite E. exact (do_reset_full s0 K).
  - intros ms events s Hs He. unfold frame. cbv zeta.
    rewrite (events_without_space events s Hs He).
    cbn [set_running game_started]. rewrite Hs. reflexivity.
Qed.

Lemma not_started_is_frozen_witness :
  let s := frame 5000 [OTHER_EVENT; QUIT] (initial_game (constant_draws 0)) in
  reachable s /\ game_started s = false
  /\ player s
     = mkPlayer (Rect.mk 385 370 30 50) JUMP_POWER GRAVITY 0%Q true 0 MAX_JUMPS
  /\ s = set_running false (initial_game (constant_draws 0)).
Proof.
  intros s.
  assert (R : reachable s).
  { apply reach_frame; [apply reach_initial | reflexivity]. }
  assert (Hs : game_started s = false) by reflexivity.
  split; [exact R |]. split; [exact Hs |].
  split.
  - exact (proj1 (proj2 (proj1 not_started_is_frozen s R Hs))).
  - apply (proj2 not_started_is_frozen 5000 [OTHER_EVENT; QUIT]); reflexivity.
Defined.

(** ** How a tick ends *)

Lemma landing_grounded (dt : Q) (s : Game) :
  let '(p1, dy, old_bottom) := integrate dt (player s) in
  is_grounded (landing_check dy old_bottom (platforms (world s)) p1) = landed dt s.
Proof.
  unfold landed.
  destruct (integrate dt (player s)) as [[p1 dy] old_bottom] eqn:E.
  assert (G : is_grounded p1 = false).
  { unfold integrate in E. inversion E. reflexivity. }
  unfold landing_check.
  destruct (Qltb 0 dy); cbn [andb]; [| exact G].
  rewrite landing_loop_find, existsb_find.
  destruct (find (lands_on p1 old_bottom) (platforms (world s))); [reflexivity | exact G].
Qed.

Lemma do_reset_flags (s : Game) :
  game_started (do_reset s) = false
  /\ score (do_reset s) = 0
  /\ is_grounded (player (do_reset s)) = true
  /\ running (do_reset s) = running s.
Proof.
  destruct (do_reset_spec s) as (y & w' & E & _). rewrite E. repeat split.
Qed.

(** The flags, the score and the grounded bit of the state a tick body
    ends in, by whether the tick reset and whether it landed. *)
Lemma update_outcome (dt : Q) (s : Game) :
  let s1 := fst (advance dt s) in
  game_started (update dt s) = (if resets dt s then false else game_started s)
  /\ score (update dt s) = (if resets dt s then 0 else score s1)
  /\ is_grounded (player (update dt s)) = (resets dt s || landed dt s)
  /\ running (update dt s) = running s.
Proof.
  rewrite update_spec. unfold resets. cbv zeta.
  pose proof (advance_spec dt s) as HA.
  pose proof (landing_grounded dt s) as HL.
  destruct (integrate dt (player s)) as [[p1 dy] old_bottom].
  cbv zeta in HA. destruct HA as (_ & HP & HS & HR).
  set (s1 := fst (advance dt s)) in *.
  rewrite <- HP in HL.
  unfold fell_off, off_screen.
  destruct (hits_obstacle s1) eqn:Hh; cbn [orb]; cbv iota.
  - destruct (do_reset_flags s1) as (F1 & F2 & F3 & F4).
    destruct (Rect.top (rect (player (do_reset s1))) >? SCREEN_HEIGHT).
    + destruct (do_reset_flags (do_reset s1)) as (G1 & G2 & G3 & G4).
      rewrite G1, G2, G3, G4, F4, HR. repeat split.
    + rewrite F1, F2, F3, F4, HR. repeat split.
  - destruct (Rect.top (rect (player s1)) >? SCREEN_HEIGHT); cbn [orb]; cbv iota.
    + destruct (do_reset_flags s1) as (F1 & F2 & F3 & F4).
      rewrite F1, F2, F3, F4, HR. repeat split.
    + rewrite HS, HL, HR. repeat split.
Qed.

(** X14. The score never goes negative and a tick never takes points
    away short of a reset: in every reachable state the score is at least
    0, and the score after a tick body is 0 if the tick ended in
    [reset_game] and otherwise the score after coin collection, which is at
    least the score before. *)
Theorem score_of_a_tick :
  (forall s, reachable s -> 0 <= score s)
  /\ (forall dt s,
         score (update dt s)
         = (if resets dt s then 0 else score (fst (advance dt s)))
         /\ score s <= score (fst (advance dt s))).
Proof.
  split.
  - intros s R. destruct (reachable_inv s R) as (_ & _ & _ & _ & _ & _ & HS & _).
    exact HS.
  - intros dt s. split; [exact (proj1 (proj2 (update_outcome dt s))) |].
    apply advance_score.
Qed.

Lemma score_of_a_tick_witness :
  reachable (initial_game (constant_draws 0))
  /\ 0 <= score (initial_game (constant_draws 0)).
Proof.
  split; [apply reach_initial |].
  exact (proj1 score_of_a_tick _ (reach_initial (constant_draws 0))).
Defined.

(** X15. How a tick body ends.  The game is still started afterwards
    unless the tick ended in [reset_game] (an obstacle was hit or the player
    left the screen); the player is grounded afterwards exactly when the
    tick reset or its landing check found a platform, so standing still is
    not enough; and the tick body never stops the loop. *)
Theorem tick_outcome :
  forall dt s,
    game_started (update dt s) = (if resets dt s then false else game_started s)
    /\ is_grounded (player (update dt s)) = (resets dt s || landed dt s)
    /\ running (update dt s) = running s.
Proof.
  intros dt s. destruct (update_outcome dt s) as (H1 & _ & H3 & H4).
  split; [exact H1 |]. split; [exact H3 | exact H4].
Qed.

(** X16. Falling off the screen resets the run.  If, in a tick of a started
    game, the player's top edge is below [SCREEN_HEIGHT] when the fall-off
    test runs, the frame ends as [reset_game] leaves the game: not started,
    score 0, two platforms, the player at rest on the initial one. *)
Theorem fall_off_resets :
  forall ms events s,
    let dt := (Q_of_Z ms / Q_of_Z 1000)%Q in
    let s0 := fold_left handle_event events s in
    game_started s0 = true ->
    off_screen (fst (advance dt s0)) = true ->
    freshly_reset (frame ms events s).
Proof.
  intros ms events s dt s0 Hs Hoff. unfold frame. fold dt. fold s0.
  rewrite Hs, update_spec. cbv zeta.
  destruct (hits_obstacle (fst (advance dt s0))).
  - apply fell_off_fresh, do_reset_fresh.
  - unfold fell_off. unfold off_screen in Hoff. rewrite Hoff. apply do_reset_fresh.
Qed.

Lemma fall_off_resets_witness :
  game_started (fold_left handle_event [] fall_state) = true
  /\ off_screen
       (fst (advance (Q_of_Z 16 / Q_of_Z 1000)%Q
               (fold_left handle_event [] fall_state))) = true
  /\ freshly_reset (frame 16 [] fall_state).
Proof.
  split; [reflexivity |]. split; [vm_compute; reflexivity |].
  apply (fall_off_resets 16 [] fall_state); vm_compute; reflexivity.
Defined.

(** ** Leaving the loop *)

Lemma events_running (events : list event) (s : Game) :
  running (fold_left handle_event events s)
  = running s && negb (existsb is_quit events).
Proof.
  revert s. induction events as [| e events IH]; intros s.
  - cbn. rewrite andb_true_r. reflexivity.
  - cbn [fold_left existsb]. rewrite IH.
    destruct e; cbn [handle_event is_quit orb negb].
    + cbn. rewrite andb_false_r. reflexivity.
    + destruct (negb (game_started s)); [reflexivity |].
      destruct (jump_count (player s) <? max_jumps (player s)); reflexivity.
    + reflexivity.
Qed.

(** X19. Only a quit event stops the loop.  After a frame the running flag
    is set exactly when it was set before and no quit event arrived: the
    tick body never clears it, in particular the coin loop's [remove] never
    raises into the loop's [except] branch. *)
Theorem only_quit_stops_the_loop :
  forall ms events s,
    running (frame ms events s) = running s && negb (existsb is_quit events).
Proof.
  intros ms events s. unfold frame. cbv zeta.
  destruct (game_started (fold_left handle_event events s)).
  - rewrite (proj2 (proj2 (proj2 (update_outcome _ _)))). apply events_running.
  - apply events_running.
Qed.

(** ** Standing on a roof *)

Lemma chain_to_later (fx fy : Z) (a : Rect.t) (rest : list Rect.t) (q : Rect.t) :
  chain_to fx fy (a :: rest) -> In q rest ->
  Rect.x a + PLATFORM_WIDTH + HORIZONTAL_GAP <= Rect.x q.
Proof.
  revert a. induction rest as [| b rest IH]; intros a H Hq; [destruct Hq |].
  destruct H as (_ & (Hx & _) & Hr).
  destruct Hq as [<- | Hq]; [lia |].
  pose proof (IH b Hr Hq). unfold PLATFORM_WIDTH, HORIZONTAL_GAP in *. lia.
Qed.

Lemma chain_to_unique (fx fy : Z) (l : list Rect.t) (p q : Rect.t) :
  chain_to fx fy l -> In p l -> In q l ->
  Z.abs (Rect.x p - Rect.x q) < PLATFORM_WIDTH + HORIZONTAL_GAP ->
  p = q.
Proof.
  induction l as [| a rest IH]; intros H Hp Hq Hd; [destruct Hp |].
  destruct Hp as [<- | Hp]; destruct Hq as [<- | Hq].
  - reflexivity.
  - pose proof (chain_to_later _ _ _ _ _ H Hq). lia.
  - pose proof (chain_to_later _ _ _ _ _ H Hp). lia.
  - exact (IH (proj2 (proj2 H)) Hp Hq Hd).
Qed.

Lemma standing_first_tick (ms : Z) :
  let dt := (Q_of_Z ms / Q_of_Z 1000)%Q in
  let v := (0 + GRAVITY * dt * Q_of_Z FPS)%Q in
  let dy := (v * dt * Q_of_Z FPS)%Q in
  Qnum dy = 28800 * ms * ms /\ Qden dy = 10000000%positive.
Proof.
  unfold GRAVITY, Q_of_Z, FPS, Qdiv, Qinv, Qmult, Qplus.
  cbn [Qnum Qden].
  change (Z.pos (10 * (1 * 1000) * 1)) with 10000.
  split; [ring | reflexivity].
Qed.

Lemma standing_first_tick_px (ms : Z) :
  0 <= ms <= 144 ->
  let k := Z.quot (28800 * ms * ms) 10000000 in
  0 <= k <= 59 /\ (1 <= k <-> 19 <= ms).
Proof.
  intros H k. subst k.
  rewrite Z.quot_div_nonneg by nia.
  split; [split |].
  - apply Z.div_pos; nia.
  - assert (28800 * ms * ms / 10000000 < 60); [| lia].
    apply Z.div_lt_upper_bound; [lia | nia].
  - split; intros H1.
    + destruct (Z.lt_ge_cases ms 19) as [L | L]; [| exact L].
      assert (28800 * ms * ms / 10000000 < 1); [| lia].
      apply Z.div_lt_upper_bound; [lia | nia].
    + apply Z.div_le_lower_bound; [lia | nia].
Qed.

Lemma set_y_same (r : Rect.t) (v : Z) : v = Rect.y r -> Rect.set_y v r = r.
Proof. intros ->. destruct r; reflexivity. Qed.

(** X17. Standing on a roof is stable for frames of up to 144 ms.  Take a
    reachable state in which the player is at rest (velocity 0) with its
    bottom on the roof of a platform it is horizontally over.  After the
    gravity, move and landing steps of a tick of at most 144 ms the player's
    rectangle is where it was: either gravity moved it by less than a
    pixel (frames below 19 ms; the landing check finds nothing and the
    player is reported not grounded, its jump count kept), or it sank by 1
    to 59 pixels into the 10-pixel roof and the landing check put it back on
    that same roof, grounded with jump count 0 (frames of 19 ms and more). *)
Theorem standing_is_stable :
  forall ms s pl,
    reachable s ->
    y_velocity (player s) = 0%Q ->
    In pl (platforms (world s)) ->
    Rect.bottom (rect (player s)) = Rect.top pl ->
    Rect.left pl < Rect.right (rect (player s)) ->
    Rect.left (rect (player s)) < Rect.right pl ->
    0 <= ms <= 144 ->
    let dt := (Q_of_Z ms / Q_of_Z 1000)%Q in
    let s1 := fst (advance dt s) in
    rect (player s1) = rect (player s)
    /\ landed dt s = (19 <=? ms)
    /\ is_grounded (player s1) = (19 <=? ms)
    /\ jump_count (player s1) = (if 19 <=? ms then 0 else jump_count (player s)).
Proof.
  intros ms s pl R Hv Hin Hb Hx1 Hx2 Hms dt s1.
  destruct (reachable_inv s R) as ((Px & Pw & Ph & _ & Pg & _) & (Hc & _) & _).
  pose proof (chain_to_roofs _ _ _ Hc) as HR.
  destruct (Forall_at _ _ _ HR Hin) as (Wpl & Hpl & _).
  pose proof (advance_spec dt s) as HA.
  pose proof (landing_grounded dt s) as HG.
  pose proof (landing_jump_count dt s) as HJ.
  fold s1 in HA. unfold landed in *. unfold integrate in *. cbv zeta in *.
  cbn [y_velocity gravity set_y_velocity rect set_rect set_is_grounded
       jump_power jump_count max_jumps is_grounded] in *.
  rewrite Hv, Pg in *.
  destruct (standing_first_tick ms) as (Ny & Dy). cbv zeta in Ny, Dy. fold dt in Ny, Dy.
  set (dy := ((0 + GRAVITY * dt * Q_of_Z FPS) * dt * Q_of_Z FPS)%Q) in *.
  destruct (standing_first_tick_px ms Hms) as (Bk & Ek). cbv zeta in Bk, Ek.
  assert (Ik : int_of dy = Z.quot (28800 * ms * ms) 10000000).
  { unfold int_of. rewrite Ny, Dy. reflexivity. }
  rewrite <- Ik in Bk, Ek. set (k := int_of dy) in *.
  set (p1 := set_is_grounded false _) in *.
  assert (R1 : rect p1 = Rect.set_y (Rect.y (rect (player s)) + k) (rect (player s)))
    by reflexivity.
  destruct HA as (_ & HP & _). rewrite HP.
  unfold Rect.bottom, Rect.top, Rect.left, Rect.right in *.
  assert (Hpure :
    forall q, In q (platforms (world s)) ->
      lands_on p1 (Rect.y (rect (player s)) + Rect.height (rect (player s))) q = true ->
      q = pl /\ 1 <= k).
  { intros q Hq L. unfold lands_on in L. apply andb_true_iff in L.
    destruct L as (Lc & Lo). apply Z.leb_le in Lo. unfold Rect.top in Lo.
    destruct (Forall_at _ _ _ HR Hq) as (Wq & Hq' & _).
    apply colliderect_positive in Lc;
      try (rewrite R1; cbn [Rect.set_y Rect.x Rect.y Rect.width Rect.height]);
      try (unfold PLATFORM_WIDTH, PLATFORM_HEIGHT in *; lia).
    rewrite R1 in Lc. cbn [Rect.set_y Rect.x Rect.y Rect.width Rect.height] in Lc.
    assert (q = pl).
    { apply (chain_to_unique _ _ _ q pl Hc Hq Hin).
      unfold PLATFORM_WIDTH, HORIZONTAL_GAP in *. lia. }
    subst q. split; [reflexivity |]. lia. }
  unfold landing_check in *.
  destruct (Qltb 0 dy) eqn:Hq.
  - rewrite landing_loop_find in *. rewrite existsb_find in *. cbn [andb] in *.
    destruct (find _ (platforms (world s))) as [pl' |] eqn:Ef.
    + apply find_some in Ef. destruct Ef as (Hin' & L').
      destruct (Hpure pl' Hin' L') as (-> & Hk).
      assert (E19 : (19 <=? ms) = true) by (apply Z.leb_le; apply Ek; exact Hk).
      rewrite E19. cbn [rect is_grounded jump_count].
      split; [| repeat split].
      rewrite R1. unfold Rect.set_bottom, Rect.set_y, Rect.top.
      cbn [Rect.x Rect.y Rect.width Rect.height].
      change (Rect.set_y (Rect.y pl - Rect.height (rect (player s))) (rect (player s))
              = rect (player s)).
      apply set_y_same. lia.
    + assert (Hk : k = 0).
      { pose proof (find_none _ _ Ef pl Hin) as L. unfold lands_on in L.
        apply andb_false_iff in L. destruct L as [L | L].
        - destruct (Z.le_gt_cases 1 k) as [G | G]; [| lia].
          exfalso.
          assert (C : Rect.colliderect (rect p1) pl = true).
          { apply colliderect_positive;
              try (rewrite R1; cbn [Rect.set_y Rect.x Rect.y Rect.width Rect.height]);
              unfold PLATFORM_WIDTH, PLATFORM_HEIGHT in *; lia. }
          congruence.
        - apply Z.leb_gt in L. unfold Rect.top in L. lia. }
      assert (E19 : (19 <=? ms) = false) by (apply Z.leb_gt; lia).
      rewrite E19. split; [| split; [reflexivity | split; [exact HG | exact (proj1 HJ)]]].
      rewrite R1. apply set_y_same. lia.
  - assert (Hk : k = 0).
    { unfold Qltb in Hq. apply negb_false_iff in Hq. apply Qle_bool_iff in Hq.
      unfold Qle in Hq. rewrite Ny in Hq. cbn [Qnum Qden] in Hq.
      assert (ms = 0) by nia. subst k. rewrite Ik. subst ms. reflexivity. }
    assert (E19 : (19 <=? ms) = false) by (apply Z.leb_gt; lia).
    rewrite E19. cbn [andb] in *.
    split; [| split; [reflexivity | split; [exact HG | exact (proj1 HJ)]]].
    rewrite R1. apply set_y_same. lia.
Qed.

(** The player of the initial state stands on the initial platform; a
    30 ms tick sinks it two pixels into the roof and lands it again. *)
Lemma standing_is_stable_witness :
  let s := initial_game (constant_draws 0) in
  let pl := Rect.mk 325 420 PLATFORM_WIDTH PLATFORM_HEIGHT in
  let s1 := fst (advance (Q_of_Z 30 / Q_of_Z 1000)%Q s) in
  reachable s
  /\ In pl (platforms (world s))
  /\ Rect.bottom (rect (player s)) = Rect.top pl
  /\ rect (player s1) = rect (player s)
  /\ is_grounded (player s1) = true.
Proof.
  intros s pl s1.
  assert (R : reachable s) by apply reach_initial.
  assert (Hin : In pl (platforms (world s))) by (left; reflexivity).
  split; [exact R |]. split; [exact Hin |]. split; [reflexivity |].
  assert (H : rect (player s1) = rect (player s)
              /\ landed (Q_of_Z 30 / Q_of_Z 1000)%Q s = (19 <=? 30)
              /\ is_grounded (player s1) = (19 <=? 30)
              /\ jump_count (player s1)
                 = (if 19 <=? 30 then 0 else jump_count (player s))).
  { apply (standing_is_stable 30 s pl R);
      [reflexivity | exact Hin | reflexivity | reflexivity | reflexivity
      | split; vm_compute; discriminate]. }
  split; [exact (proj1 H) | exact (proj1 (proj2 (proj2 H)))].
Defined.

(** ** The frontier stays ahead of the screen *)

Lemma scroll_px_eq (ms : Z) : scroll_px ms = Z.quot (300 * ms) 1000.
Proof.
  unfold scroll_px, int_of, SCROLL_SPEED, Q_of_Z, FPS, Qdiv, Qmult, Qinv.
  cbn [Qnum Qden]. f_equal. lia.
Qed.

Lemma scroll_px_bounds (ms : Z) :
  0 <= ms <= 1100 -> 0 <= scroll_px ms <= 330.
Proof.
  intros H. rewrite scroll_px_eq.
  rewrite Z.quot_div_nonneg by lia.
  split; [apply Z.div_pos; lia | apply Z.div_le_upper_bound; lia].
Qed.

Lemma paced_reachable (limit : Z) (s : Game) : reachable_paced limit s -> reachable s.
Proof.
  intros R. induction R as [g | ms events s R IH Hrun Hms].
  - apply reach_initial.
  - apply reach_frame; assumption.
Qed.

Lemma events_world (events : list event) (s : Game) :
  world (fold_left handle_event events s) = world s
  /\ last_platform_x (fold_left handle_event events s) = last_platform_x s.
Proof.
  revert s. induction events as [| e events IH]; intros s; [split; reflexivity |].
  cbn [fold_left]. destruct (IH (handle_event s e)) as (Hw & Hx). rewrite Hw, Hx.
  destruct e; cbn [handle_event]; [split; reflexivity | | split; reflexivity].
  destruct (negb (game_started s)); [split; reflexivity |].
  destruct (jump_count (player s) <? max_jumps (player s)); split; reflexivity.
Qed.

Lemma spawn_if_needed_ahead (s : Game) :
  world_ok s ->
  SCREEN_WIDTH - (PLATFORM_WIDTH + HORIZONTAL_GAP) <= last_platform_x s ->
  platforms (world s) <> [] ->
  ahead (spawn_if_needed s).
Proof.
  intros (_ & Hy & _) Hx Hne. unfold spawn_if_needed, ahead.
  destruct (Z.ltb_spec (last_platform_x s) SCREEN_WIDTH) as [Hlt | Hge];
    [| split; assumption].
  destruct (spawn_platform_detail (last_platform_y s) (last_platform_x s) (world s))
    as [(Hlt' & _) | (_ & y & w' & os & cs & E & _ & P & _)];
    unfold PLATFORM_MIN_Y, PLATFORM_MAX_Y, PLATFORM_Y_DELTA in *; [lia |].
  rewrite E. cbn [last_platform_x world]. rewrite P.
  split; [unfold SCREEN_WIDTH, PLATFORM_WIDTH, HORIZONTAL_GAP in *; lia |].
  intros C. apply app_eq_nil in C. destruct C as (_ & C). discriminate.
Qed.

Lemma prune_world_ahead (s : Game) :
  world_ok s -> ahead s -> ahead (prune_world s).
Proof.
  intros (Hc & _) (Hx & Hne). unfold ahead, prune_world.
  cbn [set_world world platforms last_platform_x].
  split; [exact Hx |].
  destruct (exists_last Hne) as (l & p & E). rewrite E in Hc |- *.
  destruct (chain_to_last _ _ l p Hc) as (Hp & _).
  destruct (Forall_at _ _ _ (chain_to_roofs _ _ _ Hc) (in_elt p l [])) as (Wp & _).
  rewrite prune_app. intros C. apply app_eq_nil in C. destruct C as (_ & C).
  unfold prune in C. cbn [filter] in C.
  destruct (Z.gtb_spec (Rect.right p) 0) as [Hr | Hr]; [discriminate |].
  unfold Rect.right, SCREEN_WIDTH, PLATFORM_WIDTH, HORIZONTAL_GAP in *. lia.
Qed.

Lemma advance_ahead (dt : Q) (s : Game) :
  world_ok s -> ahead s ->
  0 <= int_of (SCROLL_SPEED * dt * Q_of_Z FPS)%Q <= PLATFORM_WIDTH + HORIZONTAL_GAP ->
  ahead (fst (advance dt s)).
Proof.
  intros HW (Hx & Hne) Hd. rewrite advance_unfold.
  destruct (integrate dt (player s)) as [[p1 dy] old_bottom]. cbv zeta. cbn [fst].
  set (d := int_of (SCROLL_SPEED * dt * Q_of_Z FPS)%Q) in *.
  set (p2 := landing_check dy old_bottom (platforms (world s)) p1).
  set (sA := scroll_world d (set_player p2 s)).
  assert (HWA : world_ok sA) by (apply (scroll_world_ok d (set_player p2 s)); exact HW).
  assert (HB : ahead (spawn_if_needed sA)).
  { apply spawn_if_needed_ahead; [exact HWA | |].
    - subst sA. cbn [scroll_world last_platform_x set_player]. lia.
    - subst sA. cbn [scroll_world world platforms set_player]. unfold shift.
      intros C. apply map_eq_nil in C. contradiction. }
  pose proof (prune_world_ahead _ (spawn_if_needed_ok _ HWA) HB) as (HCx & HCne).
  split; assumption.
Qed.

Lemma do_reset_ahead (s : Game) : ahead (do_reset s).
Proof.
  destruct (do_reset_spec s) as (y & w' & E & _ & P). rewrite E.
  unfold ahead. cbn [last_platform_x world]. rewrite P.
  split; [unfold SCREEN_WIDTH; lia | discriminate].
Qed.

Lemma frame_ahead (ms : Z) (events : list event) (s : Game) :
  game_inv s -> ahead s -> 0 <= ms <= 1100 -> ahead (frame ms events s).
Proof.
  intros HI HA Hms. unfold frame. cbv zeta.
  pose proof (events_inv events s HI) as HI0.
  destruct (events_world events s) as (Ew & Ex).
  set (s0 := fold_left handle_event events s) in *.
  assert (HA0 : ahead s0).
  { unfold ahead. rewrite Ew, Ex. exact HA. }
  destruct (game_started s0); [| exact HA0].
  rewrite update_spec. cbv zeta.
  assert (H1 : ahead (fst (advance (Q_of_Z ms / Q_of_Z 1000) s0))).
  { apply advance_ahead; [exact (proj1 (proj2 HI0)) | exact HA0 |].
    pose proof (scroll_px_bounds ms Hms) as B. unfold scroll_px in B.
    unfold PLATFORM_WIDTH, HORIZONTAL_GAP. lia. }
  set (s1 := fst (advance (Q_of_Z ms / Q_of_Z 1000) s0)) in *.
  unfold fell_off.
  destruct (hits_obstacle s1).
  - destruct (Rect.top (rect (player (do_reset s1))) >? SCREEN_HEIGHT);
      apply do_reset_ahead.
  - destruct (Rect.top (rect (player s1)) >? SCREEN_HEIGHT);
      [apply do_reset_ahead | exact H1].
Qed.

(** X18. Generation keeps up with the scroll.  As long as no frame takes
    longer than 1100 ms (a scroll of at most 330 pixels, one platform pitch),
    the frontier is at or beyond the right screen edge at the top of every
    iteration, and the platform list is not empty: its last platform starts
    one pitch left of the frontier, so at [x >= 470]. *)
Theorem frontier_stays_ahead :
  forall s,
    reachable_paced 1100 s ->
    SCREEN_WIDTH <= last_platform_x s
    /\ exists l p,
         platforms (world s) = l ++ [p]
         /\ Rect.x p = last_platform_x s - (PLATFORM_WIDTH + HORIZONTAL_GAP)
         /\ SCREEN_WIDTH - (PLATFORM_WIDTH + HORIZONTAL_GAP) <= Rect.x p.
Proof.
  intros s R.
  assert (HA : ahead s).
  { induction R as [g | ms events s R IH Hrun Hms].
    - change (initial_game g)
        with (do_reset (mkGame initial_player (mkWorld [] [] [] g) 0 0 0 false true)).
      apply do_reset_ahead.
    - apply frame_ahead; [| exact IH | exact Hms].
      apply reachable_inv. exact (paced_reachable _ _ R). }
  destruct HA as (Hx & Hne). split; [exact Hx |].
  destruct (exists_last Hne) as (l & p & E). exists l, p.
  split; [exact E |].
  destruct (reachable_inv s (paced_reachable _ _ R)) as (_ & (Hc & _) & _).
  rewrite E in Hc. destruct (chain_to_last _ _ l p Hc) as (Hp & _).
  unfold SCREEN_WIDTH, PLATFORM_WIDTH, HORIZONTAL_GAP in *. lia.
Qed.

Lemma frontier_stays_ahead_witness :
  let s := frame 16 [KEYDOWN_SPACE] (initial_game (constant_draws 0)) in
  reachable_paced 1100 s /\ SCREEN_WIDTH <= last_platform_x s.
Proof.
  assert (R : reachable_paced 1100
                (frame 16 [KEYDOWN_SPACE] (initial_game (constant_draws 0)))).
  { apply paced_frame; [apply paced_initial | reflexivity |].
    split; vm_compute; discriminate. }
  split; [exact R |]. exact (proj1 (frontier_stays_ahead _ R)).
Defined.

(** ** Several presses in one frame *)

(** X20. The jump allowance caps the presses of a frame.  In a started
    game within its allowance, the events of one frame leave the jump count
    at the old count plus the number of space presses, cut off at
    [max_jumps]: presses beyond the allowance are ignored, and the game
    stays started. *)
Theorem presses_capped_by_max_jumps :
  forall events s,
    game_started s = true ->
    jump_count (player s) <= max_jumps (player s) ->
    let s' := fold_left handle_event events s in
    jump_count (player s')
    = Z.min (jump_count (player s) + space_presses events) (max_jumps (player s))
    /\ max_jumps (player s') = max_jumps (player s)
    /\ game_started s' = true.
Proof.
  intros events. unfold space_presses.
  induction events as [| e events IH]; intros s Hs Hj; cbv zeta.
  - cbn. split; [lia | split; [reflexivity | exact Hs]].
  - cbn [fold_left filter].
    destruct e; cbn [is_space handle_event].
    + exact (IH (set_running false s) Hs Hj).
    + rewrite Hs. cbn [negb].
      destruct (Z.ltb_spec (jump_count (player s)) (max_jumps (player s))) as [L | L].
      * match goal with |- context [fold_left handle_event events ?t] =>
          destruct (IH t Hs) as (H1 & H2 & H3); [cbn; lia |]
        end.
        rewrite H1, H2, H3. cbn [length]. rewrite Nat2Z.inj_succ. cbn.
        split; [lia | split; reflexivity].
      * destruct (IH s Hs Hj) as (H1 & H2 & H3). rewrite H1, H2, H3.
        cbn [length]. rewrite Nat2Z.inj_succ.
        split; [lia | split; reflexivity].
    + exact (IH s Hs Hj).
Qed.

(** Three presses in the air with one jump left: only one counts. *)
Lemma presses_capped_by_max_jumps_witness :
  let s := set_player (set_jump_count 1 (player crash_state)) crash_state in
  game_started s = true
  /\ jump_count (player s) <= max_jumps (player s)
  /\ jump_count (player (fold_left handle_event
                           [KEYDOWN_SPACE; OTHER_EVENT; KEYDOWN_SPACE; KEYDOWN_SPACE] s))
     = 2.
Proof.
  intros s.
  assert (H1 : game_started s = true) by reflexivity.
  assert (H2 : jump_count (player s) <= max_jumps (player s))
    by (vm_compute; discriminate).
  split; [exact H1 |]. split; [exact H2 |].
  exact (proj1 (presses_capped_by_max_jumps
                  [KEYDOWN_SPACE; OTHER_EVENT; KEYDOWN_SPACE; KEYDOWN_SPACE] s H1 H2)).
Defined.

(** ** Order of the obstacle test *)

(** X21. The obstacle test does not depend on the order of the obstacle
    list: run over two snapshots with the same members it ends in the same
    state, because the first hit already resets everything. *)
Theorem obstacle_order_irrelevant :
  forall l1 l2 s,
    (forall o, In o l1 <-> In o l2) ->
    obstacle_loop l1 s = obstacle_loop l2 s.
Proof.
  intros l1 l2 s H. rewrite !obstacle_loop_spec.
  assert (E : existsb (Rect.colliderect (rect (player s))) l1
              = existsb (Rect.colliderect (rect (player s))) l2).
  { destruct (existsb _ l1) eqn:E1; destruct (existsb _ l2) eqn:E2; try reflexivity.
    - apply existsb_exists in E1. destruct E1 as (o & Ho & Hc).
      assert (existsb (Rect.colliderect (rect (player s))) l2 = true)
        by (apply existsb_exists; exists o; split; [apply H; exact Ho | exact Hc]).
      congruence.
    - apply existsb_exists in E2. destruct E2 as (o & Ho & Hc).
      assert (existsb (Rect.colliderect (rect (player s))) l1 = true)
        by (apply existsb_exists; exists o; split; [apply H; exact Ho | exact Hc]).
      congruence. }
  rewrite E. reflexivity.
Qed.

Lemma obstacle_order_irrelevant_witness :
  let a := Rect.mk 410 370 30 30 in
  let b := Rect.mk 700 370 30 30 in
  obstacle_loop [a; b] crash_state = obstacle_loop [b; a; b] crash_state.
Proof.
  intros a b. apply obstacle_order_irrelevant.
  intros o. cbn. tauto.
Defined.

(** ** The world after a tick *)

Lemma scroll_spawn_prune_player (d : Z) (p : Player) (s : Game) :
  world (scroll_spawn_prune d (set_player p s)) = world (scroll_spawn_prune d s)
  /\ last_platform_x (scroll_spawn_prune d (set_player p s))
     = last_platform_x (scroll_spawn_prune d s)
  /\ last_platform_y (scroll_spawn_prune d (set_player p s))
     = last_platform_y (scroll_spawn_prune d s)
  /\ player (scroll_spawn_prune d (set_player p s)) = p.
Proof.
  unfold scroll_spawn_prune, prune_world, spawn_if_needed.
  cbn [scroll_world set_player set_world world platforms obstacles coins rng
       last_platform_x last_platform_y player].
  destruct (last_platform_x s - d <? SCREEN_WIDTH); [| repeat split].
  destruct (spawn_platform _ _ _) as [[lx ly] w]. repeat split.
Qed.

(** X22. What the scroll, spawn and prune steps of a tick do to the world,
    for every scroll distance [d].  Every platform, obstacle and coin is
    moved left by [d], as is the frontier; if the moved frontier is left of
    the right screen edge one [spawn_platform] call adds at most one
    platform, obstacle and coin and the frontier advances by one pitch,
    otherwise nothing is added; then each list is pruned; player, score and
    flags are not touched.  The tick body does this for the whole number of
    pixels it scrolls by, and then takes out the coins the player
    overlaps. *)
Theorem tick_moves_world :
  (forall d s,
      let s2 := scroll_spawn_prune d s in
      exists ps os cs,
        (length ps <= 1)%nat /\ (length os <= 1)%nat /\ (length cs <= 1)%nat
        /\ platforms (world s2) = prune (shift d (platforms (world s)) ++ ps)
        /\ obstacles (world s2) = prune (shift d (obstacles (world s)) ++ os)
        /\ coins (world s2) = prune (shift d (coins (world s)) ++ cs)
        /\ last_platform_x s2
           = (if last_platform_x s - d <? SCREEN_WIDTH
              then last_platform_x s - d + PLATFORM_WIDTH + HORIZONTAL_GAP
              else last_platform_x s - d)
        /\ (SCREEN_WIDTH <= last_platform_x s - d -> ps = [] /\ os = [] /\ cs = [])
        /\ player s2 = player s /\ score s2 = score s
        /\ game_started s2 = game_started s /\ running s2 = running s)
  /\ (forall dt s,
         exists d,
           let s1 := fst (advance dt s) in
           let s2 := scroll_spawn_prune d s in
           platforms (world s1) = platforms (world s2)
           /\ obstacles (world s1) = obstacles (world s2)
           /\ coins (world s1)
              = filter (fun c => negb (Rect.colliderect (rect (player s1)) c))
                  (coins (world s2))
           /\ rng (world s1) = rng (world s2)
           /\ last_platform_x s1 = last_platform_x s2
           /\ last_platform_y s1 = last_platform_y s2).
Proof.
  split.
  - intros d s s2. subst s2.
    unfold scroll_spawn_prune, prune_world.
    cbn [set_world world platforms obstacles coins last_platform_x player score
         game_started running].
    unfold spawn_if_needed.
    cbn [scroll_world world platforms obstacles coins last_platform_x
         last_platform_y player score game_started running].
    destruct (Z.ltb_spec (last_platform_x s - d) SCREEN_WIDTH) as [Hlt | Hge].
    + destruct (spawn_platform_detail (last_platform_y s) (last_platform_x s - d)
                  (mkWorld (shift d (platforms (world s))) (shift d (obstacles (world s)))
                     (shift d (coins (world s))) (rng (world s))))
        as [(_ & E) | (_ & y & w' & os & cs & E & _ & P & O & C & _ & _ & LO & _ & LC & _)];
        rewrite E;
        cbn [world platforms obstacles coins last_platform_x player score
             game_started running].
      * exists [], [], []. rewrite !app_nil_r.
        do 7 (split; [first [reflexivity | simpl; lia] |]).
        split; [intros H; lia |]. repeat split.
      * cbn [platforms obstacles coins] in P, O, C. rewrite P, O, C.
        exists [Rect.mk (last_platform_x s - d) y PLATFORM_WIDTH PLATFORM_HEIGHT], os, cs.
        split; [simpl; lia |]. split; [exact LO |]. split; [exact LC |].
        do 4 (split; [reflexivity |]).
        split; [intros H; lia |]. repeat split.
    + cbn [world platforms obstacles coins last_platform_x player score
           game_started running].
      exists [], [], []. rewrite !app_nil_r.
      do 7 (split; [first [reflexivity | simpl; lia] |]).
      split; [intros _; repeat split |]. repeat split.
  - intros dt s. exists (int_of (SCROLL_SPEED * dt * Q_of_Z FPS)%Q).
    cbv zeta. rewrite advance_unfold.
    destruct (integrate dt (player s)) as [[p1 dy] old_bottom]. cbv zeta.
    set (p2 := landing_check dy old_bottom (platforms (world s)) p1).
    fold (scroll_spawn_prune (int_of (SCROLL_SPEED * dt * Q_of_Z FPS)%Q)
            (set_player p2 s)).
    destruct (scroll_spawn_prune_player (int_of (SCROLL_SPEED * dt * Q_of_Z FPS)%Q) p2 s)
      as (Ew & Ex & Ey & Ep).
    cbn [fst world platforms obstacles coins rng last_platform_x last_platform_y player].
    rewrite Ew, Ex, Ey. repeat split.
Qed.

(** ** A jump leaves the ground *)

(** Velocity and displacement of the first tick after a jump, for a frame
    of [ms] milliseconds, as fractions. *)
Lemma jump_first_tick (ms : Z) :
  let dt := (Q_of_Z ms / Q_of_Z 1000)%Q in
  let v := (JUMP_POWER + GRAVITY * dt * Q_of_Z FPS)%Q in
  let dy := (v * dt * Q_of_Z FPS)%Q in
  Qnum v = 480 * ms - 120000 /\ Qden v = 10000%positive
  /\ Qnum dy = (480 * ms - 120000) * ms * 60 /\ Qden dy = 10000000%positive.
Proof.
  unfold JUMP_POWER, GRAVITY, Q_of_Z, FPS, Qdiv, Qinv, Qmult, Qplus.
  cbn [Qnum Qden].
  change (Z.pos (10 * (1 * 1000) * 1)) with 10000.
  split; [ring |]. split; [reflexivity |]. split; [ring | reflexivity].
Qed.

Lemma jump_first_tick_up (ms : Z) :
  2 <= ms <= 248 ->
  Z.quot ((480 * ms - 120000) * ms * 60) 10000000 <= -1.
Proof.
  intros H.
  assert (E : (480 * ms - 120000) * ms * 60 = - ((120000 - 480 * ms) * ms * 60)) by ring.
  rewrite E, Z.quot_opp_l by lia.
  rewrite Z.quot_div_nonneg by nia.
  assert (1 <= (120000 - 480 * ms) * ms * 60 / 10000000); [| lia].
  apply Z.div_le_lower_bound; [lia |]. nia.
Qed.

(** X23. A jump leaves the ground.  In a started game with a jump left and
    the configured impulse and gravity, a space press followed by the tick
    of the same frame, for any frame time from 2 to 248 ms, moves the player
    up by at least one pixel; the landing check does not run (the player
    is still rising, its velocity negative), so the player is airborne with
    the jump counted. *)
Theorem jump_lifts_off :
  forall ms s,
    jump_power (player s) = JUMP_POWER ->
    gravity (player s) = GRAVITY ->
    game_started s = true ->
    jump_count (player s) < max_jumps (player s) ->
    2 <= ms <= 248 ->
    let dt := (Q_of_Z ms / Q_of_Z 1000)%Q in
    let s0 := handle_event s KEYDOWN_SPACE in
    let s1 := fst (advance dt s0) in
    Rect.y (rect (player s1)) < Rect.y (rect (player s))
    /\ Rect.x (rect (player s1)) = Rect.x (rect (player s))
    /\ (y_velocity (player s1) < 0)%Q
    /\ is_grounded (player s1) = false
    /\ jump_count (player s1) = jump_count (player s) + 1
    /\ landed dt s0 = false.
Proof.
  intros ms s Hjp Hg Hs Hj Hms dt s0 s1.
  assert (E0 : s0 = set_player
                      (mkPlayer (rect (player s)) JUMP_POWER GRAVITY JUMP_POWER false
                         (jump_count (player s) + 1) (max_jumps (player s))) s).
  { subst s0. cbn [handle_event]. rewrite Hs. cbn [negb].
    destruct (Z.ltb_spec (jump_count (player s)) (max_jumps (player s))); [| lia].
    unfold set_is_grounded, set_jump_count, set_y_velocity. cbn.
    rewrite Hjp, Hg. reflexivity. }
  pose proof (advance_spec dt s0) as HA.
  pose proof (landing_grounded dt s0) as HL.
  fold s1 in HA. unfold landed in *. rewrite E0 in HA, HL |- *.
  cbn [player set_player world] in HA, HL |- *.
  unfold integrate in HA, HL |- *. cbv zeta in HA, HL |- *.
  cbn [y_velocity gravity set_y_velocity rect set_rect set_is_grounded
       jump_power jump_count max_jumps is_grounded] in HA, HL |- *.
  destruct (jump_first_tick ms) as (Nv & Dv & Ny & Dy). cbv zeta in Nv, Dv, Ny, Dy.
  fold dt in Nv, Dv, Ny, Dy.
  set (v := (JUMP_POWER + GRAVITY * dt * Q_of_Z FPS)%Q) in *.
  set (dy := (v * dt * Q_of_Z FPS)%Q) in *.
  assert (Hneg : Qltb 0 dy = false).
  { unfold Qltb. apply negb_false_iff. apply Qle_bool_iff.
    unfold Qle. rewrite Ny. cbn [Qnum Qden]. nia. }
  unfold landing_check in HA, HL. rewrite Hneg in HA, HL |- *.
  destruct HA as (_ & HP & _). rewrite HP.
  unfold set_is_grounded, set_rect, set_y_velocity, Rect.set_y.
  cbn [rect Rect.y Rect.x Rect.width Rect.height y_velocity is_grounded jump_count
       jump_power gravity max_jumps andb].
  split.
  - unfold int_of. rewrite Ny, Dy. pose proof (jump_first_tick_up ms Hms). lia.
  - split; [reflexivity |]. split; [| repeat split].
    unfold Qlt. rewrite Nv. cbn [Qnum Qden]. lia.
Qed.

(** The first press of [crash_state], in a 16 ms frame. *)
Lemma jump_lifts_off_witness :
  let s1 := fst (advance (Q_of_Z 16 / Q_of_Z 1000)%Q
                   (handle_event crash_state KEYDOWN_SPACE)) in
  jump_count (player crash_state) < max_jumps (player crash_state)
  /\ Rect.y (rect (player s1)) < Rect.y (rect (player crash_state)).
Proof.
  intros s1.
  assert (H : jump_count (player crash_state) < max_jumps (player crash_state))
    by (vm_compute; reflexivity).
  split; [exact H |].
  apply (jump_lifts_off 16 crash_state); try reflexivity; try exact H.
  split; vm_compute; discriminate.
Defined.

(** ** Buildings *)

(** X24. The building drawn under each platform of a reachable state is a
    proper rectangle: it starts at the roof, is as wide as the platform, is
    at least 180 high and ends exactly at the bottom of the screen, so it
    covers the roof strip. *)
Theorem reachable_buildings :
  forall s,
    reachable s ->
    forall p, In p (platforms (world s)) ->
      let b := building_rect p in
      Rect.top b = Rect.top p
      /\ Rect.left b = Rect.left p
      /\ Rect.right b = Rect.right p
      /\ 180 <= Rect.height b
      /\ Rect.bottom b = SCREEN_HEIGHT
      /\ Rect.bottom p <= Rect.bottom b.
Proof.
  intros s R p Hp b. subst b.
  destruct (reachable_inv s R) as (_ & (Hc & _) & _).
  destruct (Forall_at _ _ _ (chain_to_roofs _ _ _ Hc) Hp) as (Wp & Hh & Hy).
  rewrite initial_platform_y_eq in Hy.
  unfold building_rect, Rect.top, Rect.left, Rect.right, Rect.bottom.
  cbn [Rect.x Rect.y Rect.width Rect.height].
  unfold SCREEN_HEIGHT, PLATFORM_HEIGHT, PLATFORM_MIN_Y in *.
  repeat split; lia.
Qed.

Lemma reachable_buildings_witness :
  let s := initial_game (constant_draws 0) in
  let p := Rect.mk 325 420 PLATFORM_WIDTH PLATFORM_HEIGHT in
  reachable s /\ In p (platforms (world s))
  /\ Rect.bottom (building_rect p) = SCREEN_HEIGHT.
Proof.
  intros s p.
  assert (R : reachable s) by apply reach_initial.
  assert (Hp : In p (platforms (world s))) by (left; reflexivity).
  split; [exact R |]. split; [exact Hp |].
  exact (proj1 (proj2 (proj2 (proj2 (proj2 (reachable_buildings s R p Hp)))))).
Defined.

(** ** Sample calls of the generator *)

(** With constant draws 0, the spawn that [reset_game] chains places an
    obstacle and a coin on the new roof at [y = 370]. *)
Lemma spawn_platform_obstacle_on_new_roof_witness :
  let '((_, y), w') := spawn_platform 420 655 (world_at_reset (constant_draws 0)) in
  y = 370
  /\ obstacles w' = [Rect.mk 675 340 30 30]
  /\ Rect.bottom (Rect.mk 675 340 30 30) = y.
Proof.
  pose proof (spawn_platform_obstacle_on_new_roof 420 655
                (world_at_reset (constant_draws 0))) as H.
  destruct (spawn_platform 420 655 (world_at_reset (constant_draws 0)))
    as [[x1 y] w'] eqn:E.
  vm_compute in E. inversion E; subst x1 y w'. clear E.
  destruct H as (os & Ho & _ & _ & H).
  cbn in Ho. subst os.
  split; [reflexivity |]. split; [reflexivity |].
  exact (proj1 (proj2 (proj2 (proj2 (H _ (or_introl eq_refl)))))).
Defined.

Lemma spawn_platform_coin_over_new_roof_witness :
  let '((_, y), w') := spawn_platform 420 655 (world_at_reset (constant_draws 0)) in
  y = 370
  /\ coins w' = [Rect.mk 675 320 20 20]
  /\ Rect.bottom (Rect.mk 675 320 20 20) = y - 30.
Proof.
  pose proof (spawn_platform_coin_over_new_roof 420 655
                (world_at_reset (constant_draws 0))) as H.
  destruct (spawn_platform 420 655 (world_at_reset (constant_draws 0)))
    as [[x1 y] w'] eqn:E.
  vm_compute in E. inversion E; subst x1 y w'. clear E.
  destruct H as (cs & Hc & _ & _ & H).
  cbn in Hc. subst cs.
  split; [reflexivity |]. split; [reflexivity |].
  exact (proj1 (proj2 (proj2 (proj2 (H _ (or_introl eq_refl)))))).
Defined.

Lemma spawn_platform_generates_disjoint_witness :
  let '(_, w') := spawn_platform 420 655 (world_at_reset (constant_draws 0)) in
  obstacles w' = [Rect.mk 675 340 30 30]
  /\ coins w' = [Rect.mk 675 320 20 20]
  /\ Rect.colliderect (Rect.mk 675 340 30 30) (Rect.mk 675 320 20 20) = false.
Proof.
  pose proof (spawn_platform_generates_disjoint 420 655
                (world_at_reset (constant_draws 0))) as H.
  destruct (spawn_platform 420 655 (world_at_reset (constant_draws 0)))
    as [[x1 y] w'] eqn:E.
  vm_compute in E. inversion E; subst x1 y w'. clear E.
  destruct H as (os & cs & Ho & Hc & H & _).
  cbn in Ho, Hc. subst os cs.
  split; [reflexivity |]. split; [reflexivity |].
  exact (proj1 (H _ _ (or_introl eq_refl) (or_introl eq_refl))).
Defined.
